(** * Pod metadata generator: [kubernetes/metadata/pod.go]

    A shallow embedding of the pod metadata generator and of the parts of
    the [mapstr] document library it runs on, followed by the properties
    of [Generate], [GenerateK8s] and [GenerateFromName].

    Documents are Go maps ([mapstr.M = map[string]interface{}]); they are
    modelled as [gmap string value].  Go mutates the map a method is
    called on; the model returns the updated map instead.  Inside
    [pod.go] no map is read again through a second reference after it
    was written, so the value-passing reading loses nothing.

    A method call is modelled with what can be observed of it: the calls
    it makes on the peer generators, in order, and whether it returns or
    panics. *)

From Stdlib Require Import ZArith Ascii String.
From stdpp Require Import gmap strings list fin_maps.

Set Warnings "-register-all".
Local Open Scope string_scope.
Local Open Scope Z_scope.

(** ** Package [mapstr]

    The document type of [github.com/elastic/elastic-agent-libs] with the
    three methods [pod.go] calls: [GetValue], [Put] and [DeepUpdate],
    each written after the library's function of that name and the
    helpers it goes through ([mapFind], [tryToMapStr], [deepUpdateMap],
    [deepUpdateValue]). *)

Module mapstr.

(** A Go [interface{}] as it occurs in a document.  [VMap None] is a nil
    map that still carries its map type (what a [mapstr.M] variable
    holds before [make]); [VNil] is the nil interface.  [mapstr.M] and
    [map[string]interface{}] are treated alike by every function of the
    library used here ([tryToMapStr]), so they share [VMap].  [VOther]
    stands for any value that is neither nil, a string nor a map. *)
Inductive value : Type :=
| VNil : value
| VStr : string -> value
| VMap : option (gmap string value) -> value
| VOther : N -> value.

(** [mapstr.M]; [None] is the nil map. *)
Definition M : Type := option (gmap string value).

Inductive error : Type :=
| ErrKeyNotFound
| ErrNotMap.

(** [m[k]] with the "comma ok" form: reading a nil map finds nothing. *)
Definition lookupM (m : M) (k : string) : option value :=
  match m with
  | Some g => g !! k
  | None => None
  end.

(** [m[k]] as an expression: the zero value (nil) for a missing key. *)
Definition index (m : M) (k : string) : value :=
  match lookupM m k with
  | Some v => v
  | None => VNil
  end.

(** [tryToMapStr] *)
Definition tryToMapStr (v : value) : option M :=
  match v with
  | VMap m => Some m
  | _ => None
  end.

(** [strings.IndexRune(s, c)] for an ASCII [c]: the byte offset of the
    first [c], or [-1]. *)
Fixpoint IndexRune (s : string) (c : ascii) : Z :=
  match s with
  | EmptyString => -1
  | String a rest =>
      if Ascii.eqb a c then 0
      else let i := IndexRune rest c in
           if i <? 0 then -1 else i + 1
  end.

(** [s[:n]] *)
Fixpoint sliceTo (s : string) (n : nat) : string :=
  match n, s with
  | S n', String a rest => String a (sliceTo rest n')
  | _, _ => EmptyString
  end.

(** [s[n:]] *)
Fixpoint sliceFrom (s : string) (n : nat) : string :=
  match n, s with
  | S n', String _ rest => sliceFrom rest n'
  | _, _ => s
  end.

Definition dot : ascii := "."%char.

(** The result tuple of [mapFind]. *)
Record found : Type := mkFound {
  subKey : string;
  subMap : M;
  oldValue : value;
  present : bool;
  err : option error
}.

(** [mapFind(key, data, false)]: the loop of [mapFind] when no
    intermediate map is created.  Every turn drops at least the first
    dot of [key], so [String.length key] turns are enough; [n] counts
    the turns that are left. *)
Fixpoint mapFind_loop (n : nat) (key : string) (data : M) : found :=
  match lookupM data key with
  | Some v => mkFound key data v true None
  | None =>
      let idx := IndexRune key dot in
      if idx <? 0 then mkFound key data VNil false None
      else
        let k := sliceTo key (Z.to_nat idx) in
        match lookupM data k with
        | None => mkFound "" None VNil false (Some ErrKeyNotFound)
        | Some d =>
            match tryToMapStr d with
            | None => mkFound "" None VNil false (Some ErrNotMap)
            | Some v =>
                match n with
                | O => mkFound key data VNil false None
                | S n' => mapFind_loop n' (sliceFrom key (Z.to_nat (idx + 1))) v
                end
            end
        end
  end.

Definition mapFind (key : string) (data : M) : found :=
  mapFind_loop (String.length key) key data.

(** [M.GetValue] *)
Definition GetValue (m : M) (key : string) : value * option error :=
  let r := mapFind key m in
  match err r with
  | Some e => (VNil, Some e)
  | None => if present r then (oldValue r, None) else (VNil, Some ErrKeyNotFound)
  end.

(** What a Go call leaves behind: a value, or a run-time panic. *)
Inductive outcome (A : Type) : Type :=
| Done : A -> outcome A
| Panic : outcome A.
Arguments Done {A} _.
Arguments Panic {A}.

(** [data[k] = v]: assignment to an entry of a nil map panics. *)
Definition assign (data : M) (k : string) (v : value) : outcome (gmap string value) :=
  match data with
  | Some g => Done (<[k := v]> g)
  | None => Panic
  end.

(** [M.Put]: [mapFind(key, m, true)] followed by [d[k] = value].  Go
    writes into the maps on the path in place; here the maps on the
    path are rebuilt on the way back.  The result is the receiver after
    the call, the old value and the error.  An error can only come from
    an entry that was already there and is no map, so nothing was
    created before it and the receiver is unchanged. *)
Fixpoint Put_loop (n : nat) (key : string) (v : value) (data : M)
  : outcome (gmap string value * value * option error) :=
  match lookupM data key with
  | Some old =>
      match assign data key v with
      | Done g => Done (g, old, None)
      | Panic => Panic
      end
  | None =>
      let idx := IndexRune key dot in
      if idx <? 0 then
        match assign data key v with
        | Done g => Done (g, VNil, None)
        | Panic => Panic
        end
      else
        let k := sliceTo key (Z.to_nat idx) in
        match data with
        | None => Panic
        | Some g =>
            let d := match g !! k with
                     | Some d => d
                     | None => VMap (Some ∅)
                     end in
            match tryToMapStr d with
            | None => Done (g, VNil, Some ErrNotMap)
            | Some sub =>
                match n with
                | O => Panic
                | S n' =>
                    match Put_loop n' (sliceFrom key (Z.to_nat (idx + 1))) v sub with
                    | Done (sub', old, e) => Done (<[k := VMap (Some sub')]> g, old, e)
                    | Panic => Panic
                    end
                end
            end
        end
  end.

Definition Put (m : M) (key : string) (v : value)
  : outcome (gmap string value * value * option error) :=
  Put_loop (String.length key) key v m.

(** [deepUpdateMap] and [deepUpdateValue] with [overwrite = true], as one
    recursion on the value that is merged in.  [deepUpdateEntry old v]
    is what the body of [for k, v := range d] stores in [m[k]] when
    [old] is the entry it finds there. *)
Fixpoint deepUpdateEntry (old : option value) (v : value) {struct v} : value :=
  match v with
  | VMap val =>
      match old with
      | Some (VMap (Some sub)) =>
          match val with
          | Some d =>
              VMap (Some (map_fold
                            (fun k v' m => <[k := deepUpdateEntry (m !! k) v']> m)
                            sub d))
          | None => VMap (Some sub)
          end
      | _ => VMap val
      end
  | _ => v
  end.

(** [m.deepUpdateMap(d, true)] on a receiver that is not nil.  Both call
    sites have one: the map literal in [Generate] and [sub] after the
    [sub == nil] test. *)
Definition deepUpdateMap (m : gmap string value) (d : M) : gmap string value :=
  match d with
  | Some g => map_fold (fun k v m => <[k := deepUpdateEntry (m !! k) v]> m) m g
  | None => m
  end.

(** [deepUpdateValue(old, val, true)] *)
Definition deepUpdateValue (old : option value) (val : M) : value :=
  match old with
  | Some (VMap (Some sub)) => VMap (Some (deepUpdateMap sub val))
  | _ => VMap val
  end.

(** [M.DeepUpdate] *)
Definition DeepUpdate (m : gmap string value) (d : M) : gmap string value :=
  deepUpdateMap m d.

End mapstr.

(** ** Package [kubernetes]: the resources *)

Module kubernetes.

Record ObjectMeta : Type := {
  Name : string;
  Namespace : string
}.

Record PodSpec : Type := {
  NodeName : string
}.

Record PodStatus : Type := {
  PodIP : string
}.

(** [kubernetes.Pod], with the fields the generator reads. *)
Record Pod : Type := {
  Meta : ObjectMeta;
  Spec : PodSpec;
  Status : PodStatus
}.

(** [kubernetes.Resource]: a pod, or a resource of another kind. *)
Inductive Resource : Type :=
| ResPod (po : Pod)
| ResOther (kind : string) (meta : ObjectMeta).

End kubernetes.

(** ** Package [metadata] *)

Import mapstr.

(** Modelled from the spec: [FieldOptions], "a variadic list of
    field-selection directives".  In Go an option is a function that
    edits the document; [pod.go] builds one, [WithMetadata("node")], and
    passes the others on. *)
Inductive FieldOptions : Type :=
| WithFields (key : string) (v : value)
| WithMetadata (kind : string).

(** Modelled from the spec: the interface [MetaGen], the "peer resolver
    contract", by the one method the pod generator calls on its peers.
    A peer reads its own cache and answers [GenerateFromName] with a
    document or nil. *)
Record MetaGen : Type := {
  peerGenerateFromName : string -> list FieldOptions -> M
}.

(** Modelled from the spec: the generic generator [*Resource] behind
    [p.resource] (the "ResourceProjector"), declared in [resource.go].
    Its two methods are the fields of a record, so that every statement
    below holds for whatever they answer. *)
Record Resource : Type := {
  resourceGenerateECS : kubernetes.Resource -> M;
  resourceGenerateK8s : string -> kubernetes.Resource -> list FieldOptions -> M
}.

(** Modelled from the spec: [AddResourceMetadataConfig], the
    "ResolutionConfig" of boolean flags, with the two switches [pod.go]
    reads. *)
Record AddResourceMetadataConfig : Type := {
  Deployment : bool;
  CronJob : bool
}.

(** [cache.Store], by the one method used: [GetByKey] answers
    [(item, exists, err)]; the item is nil ([None]) or an object. *)
Record Store : Type := {
  GetByKey : string -> option kubernetes.Resource * bool * option error
}.

(** [type pod struct].  The interface fields are [None] when nil.
    [client] is never read by the methods below and is left out.  The
    pointers the methods read through without a test, the receiver,
    [resource], [addResourceMetadata] and the [*kubernetes.Pod] inside
    the resource, are taken to be set. *)
Record pod : Type := {
  store : option Store;
  node : option MetaGen;
  replicaset : option MetaGen;
  job : option MetaGen;
  resource : Resource;
  addResourceMetadata : AddResourceMetadataConfig
}.

(** The field of [pod] a peer is called through. *)
Inductive Peer : Type :=
| ViaReplicaset
| ViaJob
| ViaNode.

#[global] Instance Peer_eq_dec : EqDecision Peer.
Proof. solve_decision. Defined.

(** One call of a peer's [GenerateFromName]. *)
Record Call : Type := mkCall {
  callee : Peer;
  calledName : string;
  calledOpts : list FieldOptions
}.

(** A method body: the peer calls it made, in order, and how it ended. *)
Definition Eff (A : Type) : Type := list Call * outcome A.

#[global] Instance Eff_ret : MRet Eff := fun A a => ([], Done a).

#[global] Instance Eff_bind : MBind Eff := fun A B f c =>
  match c with
  | (tr, Done a) => let '(tr', r) := f a in ((tr ++ tr')%list, r)
  | (tr, Panic) => (tr, Panic)
  end.

Definition calls {A} (c : Eff A) : list Call := fst c.
Definition result {A} (c : Eff A) : outcome A := snd c.

(** [g.GenerateFromName(name, opts...)] through the field [via].  A call
    through a nil interface panics. *)
Definition callGenerateFromName (via : Peer) (g : option MetaGen)
    (name : string) (opts : list FieldOptions) : Eff M :=
  match g with
  | Some gen => ([mkCall via name opts], Done (peerGenerateFromName gen name opts))
  | None => ([], Panic)
  end.

(** [_, _ = out.Put(key, v)]: both results are dropped; the map stays
    the one [out] refers to. *)
Definition put (out : M) (key : string) (v : value) : Eff M :=
  match Put out key v with
  | Done (g, _, _) => mret (Some g)
  | Panic => ([], Panic)
  end.

(** [deploymentName != ""] on an [interface{}]: only the string [""]
    is equal to [""]. *)
Definition isEmptyString (v : value) : bool :=
  match v with
  | VStr s => String.eqb s ""
  | _ => false
  end.

(** [p.GenerateECS] *)
Definition GenerateECS (p : pod) (obj : kubernetes.Resource) : M :=
  resourceGenerateECS (resource p) obj.

(** Lines 96-107 of [GenerateK8s]: Deployment -> ReplicaSet -> Pod. *)
Definition deploymentHop (p : pod) (out : M) : Eff M :=
  if Deployment (addResourceMetadata p) then
    match replicaset p with
    | Some _ =>
        let '(rsName, _) := GetValue out "replicaset.name" in
        match rsName with
        | VStr rsName =>
            meta ← callGenerateFromName ViaReplicaset (replicaset p) rsName [];
            let '(deploymentName, _) := GetValue meta "deployment.name" in
            if negb (isEmptyString deploymentName)
            then put out "deployment.name" deploymentName
            else mret out
        | _ => mret out
        end
    | None => mret out
    end
  else mret out.

(** Lines 111-122: CronJob -> Job -> Pod.  The guard tests [p.job]; the
    call goes through [p.replicaset]. *)
Definition cronJobHop (p : pod) (out : M) : Eff M :=
  if CronJob (addResourceMetadata p) then
    match job p with
    | Some _ =>
        let '(jobName, _) := GetValue out "job.name" in
        match jobName with
        | VStr jobName =>
            meta ← callGenerateFromName ViaReplicaset (replicaset p) jobName [];
            let '(cronjobName, _) := GetValue meta "cronjob.name" in
            if negb (isEmptyString cronjobName)
            then put out "cronjob.name" cronjobName
            else mret out
        | _ => mret out
        end
    | None => mret out
    end
  else mret out.

(** Lines 124-133: the node. *)
Definition nodeHop (p : pod) (po : kubernetes.Pod) (out : M) : Eff M :=
  let nodeName := kubernetes.NodeName (kubernetes.Spec po) in
  match node p with
  | Some _ =>
      meta ← callGenerateFromName ViaNode (node p) nodeName [WithMetadata "node"];
      match meta with
      | Some _ => put out "node" (index meta "node")
      | None => put out "node.name" (VStr nodeName)
      end
  | None => put out "node.name" (VStr nodeName)
  end.

(** Lines 135-137: the pod IP. *)
Definition podIPStep (po : kubernetes.Pod) (out : M) : Eff M :=
  let ip := kubernetes.PodIP (kubernetes.Status po) in
  if negb (String.eqb ip "") then put out "pod.ip" (VStr ip) else mret out.

(** [p.GenerateK8s] *)
Definition GenerateK8s (p : pod) (obj : kubernetes.Resource)
    (opts : list FieldOptions) : Eff M :=
  match obj with
  | kubernetes.ResPod po =>
      let out := resourceGenerateK8s (resource p) "pod" obj opts in
      out ← deploymentHop p out;
      out ← cronJobHop p out;
      out ← nodeHop p po out;
      out ← podIPStep po out;
      mret out
  | _ => mret None
  end.

(** [p.Generate] *)
Definition Generate (p : pod) (obj : kubernetes.Resource)
    (opts : list FieldOptions) : Eff M :=
  let ecsFields := GenerateECS p obj in
  k8s ← GenerateK8s p obj opts;
  let meta : gmap string value := {[ "kubernetes" := VMap k8s ]} in
  mret (Some (DeepUpdate meta ecsFields)).

(** [p.GenerateFromName] *)
Definition GenerateFromName (p : pod) (name : string)
    (opts : list FieldOptions) : Eff M :=
  match store p with
  | None => mret None
  | Some st =>
      let '(obj, ok, _) := GetByKey st name in
      if ok then
        match obj with
        | Some (kubernetes.ResPod po) => GenerateK8s p (kubernetes.ResPod po) opts
        | _ => mret None
        end
      else mret None
  end.

(** ** Deep merge as the specification words it

    "Recursive union of two nested mappings where leaf values in the
    second operand overwrite leaf values in the first at matching
    paths": under a key both operands map to a mapping, the two
    mappings are merged; under any other key of the second operand its
    value stands; the remaining keys keep the first operand's value.
    A nil mapping counts as an empty one. *)

Fixpoint specMergeValue (a : option value) (b : value) {struct b} : value :=
  match a, b with
  | Some (VMap (Some x)), VMap (Some y) =>
      VMap (Some (map_imap (fun k vb => Some (specMergeValue (x !! k) vb)) y ∪ x))
  | Some (VMap (Some x)), VMap None => VMap (Some x)
  | _, _ => b
  end.

Definition specDeepMerge (a : gmap string value) (b : M) : gmap string value :=
  match b with
  | Some y => map_imap (fun k vb => Some (specMergeValue (a !! k) vb)) y ∪ a
  | None => a
  end.

(** [GenerateK8s(r)] wrapped under ["kubernetes"], then [GenerateECS(r)]
    deep-merged into it. *)
Definition specGenerate (p : pod) (obj : kubernetes.Resource)
    (opts : list FieldOptions) : Eff M :=
  k8s ← GenerateK8s p obj opts;
  mret (Some (specDeepMerge {[ "kubernetes" := VMap k8s ]} (GenerateECS p obj))).

(** The value under a path of plain keys, one key per nesting level. *)
Fixpoint lookupPath (path : list string) (v : value) : option value :=
  match path with
  | [] => Some v
  | k :: rest =>
      match v with
      | VMap (Some g) =>
          match g !! k with
          | Some w => lookupPath rest w
          | None => None
          end
      | _ => None
      end
  end.

Definition isLeaf (v : value) : bool :=
  match v with
  | VMap _ => false
  | _ => true
  end.

(** ** [range] in any order

    Go leaves the order in which [for k, v := range d] visits a map
    open, and it may differ from one run to the next.  [deepUpdateMap]
    above follows the order of [map_fold]; the relations below let every
    [range] pick its own order. *)

Inductive rangeUpdate : gmap string value -> list (string * value) -> gmap string value -> Prop :=
| rangeUpdate_nil m : rangeUpdate m [] m
| rangeUpdate_cons m k v new rest m' :
    entryUpdate (m !! k) v new ->
    rangeUpdate (<[k := new]> m) rest m' ->
    rangeUpdate m ((k, v) :: rest) m'
with entryUpdate : option value -> value -> value -> Prop :=
| entryUpdate_scalar old v :
    isLeaf v = true -> entryUpdate old v v
| entryUpdate_replace old val :
    (forall sub, old <> Some (VMap (Some sub))) ->
    entryUpdate old (VMap val) (VMap val)
| entryUpdate_nil sub :
    entryUpdate (Some (VMap (Some sub))) (VMap None) (VMap (Some sub))
| entryUpdate_merge sub d order sub' :
    order ≡ₚ map_to_list d ->
    rangeUpdate sub order sub' ->
    entryUpdate (Some (VMap (Some sub))) (VMap (Some d)) (VMap (Some sub')).

Scheme rangeUpdate_mut := Induction for rangeUpdate Sort Prop
  with entryUpdate_mut := Induction for entryUpdate Sort Prop.

Inductive deepUpdateRun : gmap string value -> M -> gmap string value -> Prop :=
| deepUpdateRun_nil m : deepUpdateRun m None m
| deepUpdateRun_range m d order m' :
    order ≡ₚ map_to_list d ->
    rangeUpdate m order m' ->
    deepUpdateRun m (Some d) m'.

(** One run of [Generate]. *)
Inductive GenerateRun (p : pod) (obj : kubernetes.Resource) (opts : list FieldOptions)
  : Eff M -> Prop :=
| GenerateRun_done tr k8s meta :
    GenerateK8s p obj opts = (tr, Done k8s) ->
    deepUpdateRun {[ "kubernetes" := VMap k8s ]} (GenerateECS p obj) meta ->
    GenerateRun p obj opts (tr, Done (Some meta))
| GenerateRun_panic tr :
    GenerateK8s p obj opts = (tr, Panic) ->
    GenerateRun p obj opts (tr, Panic).

(** ** Conditions on the base document and on the configuration *)

(** Line 92: the base document of a pod. *)
Definition baseDoc (p : pod) (po : kubernetes.Pod) (opts : list FieldOptions) : M :=
  resourceGenerateK8s (resource p) "pod" (kubernetes.ResPod po) opts.

(** The entry under [k] is missing or a map that is not nil: a dotted
    [Put] below [k] goes through. *)
Definition sectionReady (g : gmap string value) (k : string) : bool :=
  match g !! k with
  | None => true
  | Some (VMap (Some _)) => true
  | Some _ => false
  end.

(** The base document is not nil and the four sections [GenerateK8s]
    writes below are ready. *)
Definition readyBase (base : M) : bool :=
  match base with
  | Some g => forallb (sectionReady g) ["deployment"; "cronjob"; "node"; "pod"]
  | None => false
  end.

Definition isString (v : value) : bool :=
  match v with
  | VStr _ => true
  | _ => false
  end.

Definition isSome {A} (o : option A) : bool :=
  match o with
  | Some _ => true
  | None => false
  end.

(** The CronJob hop gets as far as its peer call. *)
Definition cronJobHopCalls (p : pod) (base : M) : bool :=
  CronJob (addResourceMetadata p) && isSome (job p)
  && isString (fst (GetValue base "job.name")).

(** The Deployment hop gets as far as its peer call. *)
Definition deploymentHopCalls (p : pod) (base : M) : bool :=
  Deployment (addResourceMetadata p) && isSome (replicaset p)
  && isString (fst (GetValue base "replicaset.name")).

(** The document has a value under the dotted [key]. *)
Definition hasKey (m : M) (key : string) : bool :=
  match GetValue m key with
  | (_, None) => true
  | (_, Some _) => false
  end.

(** The calls that went through one field. *)
Definition callsVia (via : Peer) (tr : list Call) : list Call :=
  filter (fun c => callee c = via) tr.

(** ** Dotted keys, calls and runs: auxiliary definitions *)

(** The top-level key a dotted key starts from. *)
Definition headKey (key : string) : string :=
  if IndexRune key dot <? 0 then key
  else sliceTo key (Z.to_nat (IndexRune key dot)).

Definition restKey (key : string) : string :=
  sliceFrom key (Z.to_nat (IndexRune key dot + 1)).

(** Documents that agree outside of the keys [ks]. *)
Definition agreeOutside (ks : list string) (g g' : gmap string value) : Prop :=
  forall t, t ∉ ks -> g' !! t = g !! t.

(** The peer call of an owner hop, given the name it read. *)
Definition hopCall (via : Peer) (v : value) : list Call :=
  match v with
  | VStr s => [mkCall via s []]
  | _ => []
  end.

(** The peer calls of the three hops, read off the document a hop starts
    from. *)
Definition deploymentCalls (p : pod) (out : M) : list Call :=
  if Deployment (addResourceMetadata p) && isSome (replicaset p)
  then hopCall ViaReplicaset (fst (GetValue out "replicaset.name"))
  else [].

Definition cronJobCalls (p : pod) (out : M) : list Call :=
  if CronJob (addResourceMetadata p) && isSome (job p)
  then hopCall ViaReplicaset (fst (GetValue out "job.name"))
  else [].

Definition nodeCalls (p : pod) (po : kubernetes.Pod) : list Call :=
  if isSome (node p)
  then [mkCall ViaNode (kubernetes.NodeName (kubernetes.Spec po)) [WithMetadata "node"]]
  else [].

(** What the node peer answers for the pod's node; nil without a peer. *)
Definition nodeAnswer (p : pod) (po : kubernetes.Pod) : M :=
  match node p with
  | Some gen =>
      peerGenerateFromName gen (kubernetes.NodeName (kubernetes.Spec po)) [WithMetadata "node"]
  | None => None
  end.

(** The size of a value, to recurse into the maps it holds. *)
Fixpoint vsize (v : value) : nat :=
  match v with
  | VMap (Some d) => S (map_fold (fun _ v' acc => (vsize v' + acc)%nat) 0%nat d)
  | _ => 1%nat
  end.

(** The loop over the entries in the order of the list. *)
Definition rangeApply (m : gmap string value) (l : list (string * value)) : gmap string value :=
  foldl (fun acc kv => <[kv.1 := deepUpdateEntry (acc !! kv.1) kv.2]> acc) m l.

(** A run of [Generate] whose outermost [range] takes the entries of
    the ECS document in the order of the list. *)
Definition GenerateInOrder (p : pod) (obj : kubernetes.Resource) (opts : list FieldOptions)
    (order : list (string * value)) : Eff M :=
  match GenerateK8s p obj opts with
  | (tr, Done k8s) => (tr, Done (Some (rangeApply {[ "kubernetes" := VMap k8s ]} order)))
  | (tr, Panic) => (tr, Panic)
  end.

(** ** Sample inputs *)

Module sample.

Definition doc (l : list (string * value)) : value := VMap (Some (list_to_map l)).

Definition mkPod (nodeName ip : string) : kubernetes.Pod :=
  {| kubernetes.Meta := {| kubernetes.Name := "web-0"; kubernetes.Namespace := "default" |};
     kubernetes.Spec := {| kubernetes.NodeName := nodeName |};
     kubernetes.Status := {| kubernetes.PodIP := ip |} |}.

(** A projector that answers every pod with the same base document. *)
Definition projector (base ecs : M) : Resource :=
  {| resourceGenerateECS := fun _ => ecs;
     resourceGenerateK8s := fun _ _ _ => base |}.

(** A peer whose cache holds one name. *)
Definition peer (known : string) (answer : M) : MetaGen :=
  {| peerGenerateFromName := fun name _ => if String.eqb name known then answer else None |}.

Definition baseRS : M :=
  Some (list_to_map [("pod", doc [("name", VStr "web-0")]);
                     ("replicaset", doc [("name", VStr "rs1")])]).

Definition baseJob : M :=
  Some (list_to_map [("pod", doc [("name", VStr "web-0")]);
                     ("job", doc [("name", VStr "job1")])]).

Definition rsGen : MetaGen :=
  peer "rs1" (Some (list_to_map [("replicaset", doc [("name", VStr "rs1")]);
                                 ("deployment", doc [("name", VStr "dep1")])])).

Definition jobGen : MetaGen :=
  peer "job1" (Some (list_to_map [("job", doc [("name", VStr "job1")]);
                                  ("cronjob", doc [("name", VStr "cj1")])])).

Definition nodeGen : MetaGen :=
  peer "n1" (Some (list_to_map [("node", doc [("name", VStr "n1"); ("uid", VStr "u-1")])])).

Definition ecs : M :=
  Some (list_to_map [("orchestrator", doc [("cluster", doc [("name", VStr "prod")])])]).

Definition ecsTwo : gmap string value :=
  list_to_map [("orchestrator", doc [("cluster", doc [("name", VStr "prod")])]);
               ("kubernetes", doc [("cluster", VStr "prod")])].

(** A peer whose cache does not hold ["rs1"]. *)
Definition rsMiss : MetaGen := peer "rs0" None.


Definition generator (base ecsDoc : M) (nd rs jb : option MetaGen) (dep cron : bool)
    (st : option Store) : pod :=
  {| store := st; node := nd; replicaset := rs; job := jb;
     resource := projector base ecsDoc;
     addResourceMetadata := {| Deployment := dep; CronJob := cron |} |}.

Definition webPod : kubernetes.Pod := mkPod "n1" "10.0.0.5".

Definition aNode : kubernetes.Resource :=
  kubernetes.ResOther "Node" {| kubernetes.Name := "n1"; kubernetes.Namespace := "" |}.

(** A pod of a Job; the CronJob switch is on, both peers are there. *)
Definition cronBoth : pod :=
  generator baseJob ecs None (Some rsGen) (Some jobGen) true true None.

(** The same with the Deployment switch off and no ReplicaSet peer. *)
Definition cronOnly : pod :=
  generator baseJob ecs None None (Some jobGen) false true None.

(** A pod of a ReplicaSet the ReplicaSet peer does not know. *)
Definition deploymentMiss : pod :=
  generator baseRS ecs None (Some rsMiss) None true false None.

(** A pod of a ReplicaSet, all peers there. *)
Definition deploymentAll : pod :=
  generator baseRS ecs (Some nodeGen) (Some rsGen) (Some jobGen) true true None.


(** A pod of a ReplicaSet whose ECS document has two entries. *)
Definition mergeTwo : pod :=
  generator baseRS (Some ecsTwo) (Some nodeGen) (Some rsGen) (Some jobGen) true true None.

(** A pod store with one pod and one node. *)
Definition podStore : Store :=
  {| GetByKey := fun name =>
       if String.eqb name "web-0" then (Some (kubernetes.ResPod webPod), true, None)
       else if String.eqb name "n1" then (Some aNode, true, None)
       else (None, false, None) |}.

Definition withStore : pod :=
  generator baseRS ecs (Some nodeGen) (Some rsGen) (Some jobGen) true true (Some podStore).

End sample.

(** ** The claims as the specification states them, where the code
    departs from them *)

(** "Returns nil/empty". *)
Definition returnsNilOrEmpty (r : Eff M) : Prop :=
  result r = Done None \/ result r = Done (Some ∅).



(** "If the Node resolver answers with a document, the output's node
    key equals that document's node sub-document; if it answers nil or
    there is none, the output contains only node.name, set to the raw
    node name". *)
Definition nodeHopAsStated (p : pod) (po : kubernetes.Pod) (opts : list FieldOptions) : Prop :=
  exists out,
    result (GenerateK8s p (kubernetes.ResPod po) opts) = Done (Some out)
    /\ match match node p with
             | Some gen =>
                 peerGenerateFromName gen (kubernetes.NodeName (kubernetes.Spec po))
                   [WithMetadata "node"]
             | None => None
             end with
       | Some meta => out !! "node" = Some (index (Some meta) "node")
       | None =>
           out !! "node"
           = Some (VMap (Some {[ "name" := VStr (kubernetes.NodeName (kubernetes.Spec po)) ]}))
       end.

(** "With a non-empty IP the output contains pod.ip set to it; with an
    empty IP the pod.ip key is absent". *)
Definition podIPAsStated (p : pod) (po : kubernetes.Pod) (opts : list FieldOptions) : Prop :=
  exists out,
    result (GenerateK8s p (kubernetes.ResPod po) opts) = Done (Some out)
    /\ if String.eqb (kubernetes.PodIP (kubernetes.Status po)) ""
       then hasKey (Some out) "pod.ip" = false
       else GetValue (Some out) "pod.ip"
            = (VStr (kubernetes.PodIP (kubernetes.Status po)), None).

(** ** The constructor *)

(** Modelled from the spec: [*config.C] and [k8s.Interface], which the
    constructor hands on without looking into them. *)
Inductive Config : Type := ConfigHandle (id : N).

Inductive Client : Type := ClientHandle (id : N).

(** [NewPodMetadataGenerator].  [NewNamespaceAwareResourceMetadataGenerator]
    is declared in [resource.go]; it is the first argument here.  The
    namespace generator goes to it and nowhere else. *)
Definition NewPodMetadataGenerator
    (NewNamespaceAwareResourceMetadataGenerator :
       option Config -> option Client -> option MetaGen -> Resource)
    (cfg : option Config) (pods : option Store) (client : option Client)
    (nodeGen namespaceGen replicasetGen jobGen : option MetaGen)
    (conf : AddResourceMetadataConfig) : pod :=
  {| resource := NewNamespaceAwareResourceMetadataGenerator cfg client namespaceGen;
     store := pods;
     node := nodeGen;
     replicaset := replicasetGen;
     job := jobGen;
     addResourceMetadata := conf |}.

(** ** The entries [GenerateK8s] writes *)

(** The top-level keys a [Put] of [GenerateK8s] can reach: each dotted
    key and its first segment. *)
Definition touchedKeys : list string :=
  ["deployment.name"; "deployment"; "cronjob.name"; "cronjob";
   "node"; "node.name"; "pod.ip"; "pod"].

(** The base document is not nil and its sections other than [node] are
    ready. *)
Definition readyExceptNode (base : M) : bool :=
  match base with
  | Some g => forallb (sectionReady g) ["deployment"; "cronjob"; "pod"]
  | None => false
  end.

(** ** Further sample inputs *)

Module edge.

(** The projector answers nil. *)
Definition nilBase : pod :=
  sample.generator None sample.ecs (Some sample.nodeGen) (Some sample.rsGen)
    (Some sample.jobGen) true true None.

(** A base document that comes with a [node] section of its own. *)
Definition baseNodeMap : M :=
  Some (list_to_map [("pod", sample.doc [("name", VStr "web-0"); ("uid", VStr "p-1")]);
                     ("node", sample.doc [("hostname", VStr "host-1")]);
                     ("namespace", VStr "default")]).

(** A base document whose [node] entry is a string. *)
Definition baseNodeString : M :=
  Some (list_to_map [("pod", sample.doc [("name", VStr "web-0")]);
                     ("node", VStr "n0")]).

Definition noPeers (base : M) : pod :=
  sample.generator base sample.ecs None None None true true None.

(** A node peer that does not know the node. *)
Definition nodeMiss : MetaGen := sample.peer "n9" None.

(** A ReplicaSet peer whose [deployment.name] for ["rs1"] is a number. *)
Definition rsOdd : MetaGen :=
  sample.peer "rs1" (Some (list_to_map [("deployment", sample.doc [("name", VOther 7)])])).

Definition deploymentOdd : pod :=
  sample.generator sample.baseRS sample.ecs None (Some rsOdd) None true false None.

(** A projector constructor that ignores what it is given. *)
Definition newResource (base ecsDoc : M)
  : option Config -> option Client -> option MetaGen -> Resource :=
  fun _ _ _ => sample.projector base ecsDoc.

(** What [GenerateK8s] makes of [baseNodeMap] for [sample.webPod]
    without peers. *)
Definition noPeersOut : gmap string value :=
  list_to_map [("pod", sample.doc [("name", VStr "web-0"); ("uid", VStr "p-1");
                                   ("ip", VStr "10.0.0.5")]);
               ("node", sample.doc [("hostname", VStr "host-1"); ("name", VStr "n1")]);
               ("namespace", VStr "default")].

(** What [GenerateK8s] makes of [sample.baseRS] for [sample.webPod] with
    all peers. *)
Definition allPeersOut : gmap string value :=
  list_to_map [("pod", sample.doc [("name", VStr "web-0"); ("ip", VStr "10.0.0.5")]);
               ("replicaset", sample.doc [("name", VStr "rs1")]);
               ("deployment", sample.doc [("name", VStr "dep1")]);
               ("node", sample.doc [("name", VStr "n1"); ("uid", VStr "u-1")])].

(** What [Generate] returns for a node. *)
Definition nodeOut : gmap string value :=
  list_to_map [("orchestrator", sample.doc [("cluster", sample.doc [("name", VStr "prod")])]);
               ("kubernetes", VMap None)].

(** What [GenerateK8s] makes of [baseNodeString] for [sample.webPod]
    without peers. *)
Definition nodeStringOut : gmap string value :=
  list_to_map [("pod", sample.doc [("name", VStr "web-0"); ("ip", VStr "10.0.0.5")]);
               ("node", VStr "n0")].

(** A base document that comes with [pod.ip], as a caller's
    [WithFields] can make it. *)
Definition basePodIP : M :=
  Some (list_to_map [("pod", sample.doc [("name", VStr "web-0"); ("ip", VStr "10.9.9.9")])]).

(** A pod that has no IP yet. *)
Definition pendingPod : kubernetes.Pod := sample.mkPod "n1" "".

(** The generator the constructor builds from a node peer alone. *)
Definition nodeOnly : pod :=
  NewPodMetadataGenerator (newResource baseNodeMap sample.ecs) None None None
    (Some sample.nodeGen) None None None {| Deployment := true; CronJob := true |}.

End edge.

(** The document a call returned; empty when it panicked or returned
    nil. *)
Definition docOf (c : Eff M) : gmap string value :=
  match result c with
  | Done (Some g) => g
  | _ => ∅
  end.

(** ** Tactics for literal keys *)

(** An equation between closed terms, by evaluation of both sides. *)
Ltac vm_refl :=
  lazymatch goal with
  | |- @eq ?T ?l _ => vm_cast_no_check (@eq_refl T l)
  end.


(** The segments of a literal key, by computation. *)
Ltac section_key := first [reflexivity | vm_compute; intros; congruence].

(** Membership of a literal key in a literal list of keys. *)
Ltac other_key :=
  let H := fresh in
  intros H; repeat (apply elem_of_cons in H as [H|H]; [vm_compute in H; discriminate H|]);
  by apply elem_of_nil in H.

(** Membership of a key of a literal list in [touchedKeys]. *)
Ltac touched_key :=
  let t := fresh in let H := fresh in
  intros t H; unfold touchedKeys;
  repeat (apply elem_of_cons in H as [->|H]; [rewrite !elem_of_cons; tauto|]);
  by apply elem_of_nil in H.

(** * Properties *)

(** ** Strings and dotted keys *)

Section Keys.

Local Open Scope nat_scope.

Lemma IndexRune_lower (s : string) (c : ascii) : (-1 <= IndexRune s c)%Z.
Proof.
  induction s as [|a s IH]; simpl; [lia|].
  destruct (Ascii.eqb a c); [lia|].
  destruct (Z.ltb_spec (IndexRune s c) 0); lia.
Qed.

Lemma IndexRune_upper (s : string) (c : ascii) :
  (IndexRune s c < Z.of_nat (String.length s))%Z.
Proof.
  induction s as [|a s IH]; simpl String.length; simpl IndexRune; [lia|].
  destruct (Ascii.eqb a c); [lia|].
  destruct (Z.ltb_spec (IndexRune s c) 0); lia.
Qed.

Lemma length_sliceFrom (s : string) (n : nat) :
  String.length (sliceFrom s n) = String.length s - n.
Proof.
  revert s; induction n as [|n IH]; intros [|a s]; simpl; auto.
Qed.

Lemma length_sliceTo (s : string) (n : nat) :
  n <= String.length s -> String.length (sliceTo s n) = n.
Proof.
  revert s; induction n as [|n IH]; intros [|a s]; simpl; intros; try lia.
  rewrite IH; lia.
Qed.

(** What is left of a key behind its first dot is shorter than the key. *)
Lemma rest_shorter (key : string) (n : nat) :
  (0 <= IndexRune key dot)%Z ->
  String.length key <= S n ->
  String.length (sliceFrom key (Z.to_nat (IndexRune key dot + 1))) <= n.
Proof.
  intros Hidx Hlen. rewrite length_sliceFrom.
  pose proof (IndexRune_upper key dot). lia.
Qed.

(** The first segment of a dotted key is a different key. *)
Lemma head_ne_key (key : string) :
  (0 <= IndexRune key dot)%Z ->
  sliceTo key (Z.to_nat (IndexRune key dot)) <> key.
Proof.
  intros Hidx Heq. apply (f_equal String.length) in Heq.
  pose proof (IndexRune_upper key dot).
  rewrite length_sliceTo in Heq; lia.
Qed.

End Keys.

(** ** [mapFind], [GetValue] and [Put] do not depend on the turn count *)

Lemma mapFind_loop_enough (n n' : nat) (key : string) (data : M) :
  (String.length key <= n)%nat -> (String.length key <= n')%nat ->
  mapFind_loop n key data = mapFind_loop n' key data.
Proof.
  revert n' key data. induction n as [|n IH]; intros n' key data Hn Hn'.
  - destruct key; simpl in Hn; [|lia].
    destruct n'; simpl; destruct (lookupM data ""); reflexivity.
  - destruct n' as [|n'].
    + destruct key; simpl in Hn'; [|lia].
      simpl; destruct (lookupM data ""); reflexivity.
    + simpl. destruct (lookupM data key); [reflexivity|].
      destruct (Z.ltb_spec (IndexRune key dot) 0) as [|Hidx]; [reflexivity|].
      destruct (lookupM data _) as [d|]; [|reflexivity].
      destruct (tryToMapStr d) as [v|]; [|reflexivity].
      apply IH; apply rest_shorter; assumption.
Qed.

(** One turn of the loop of [mapFind]. *)
Lemma mapFind_unfold (key : string) (data : M) :
  mapFind key data =
  match lookupM data key with
  | Some v => mkFound key data v true None
  | None =>
      if IndexRune key dot <? 0 then mkFound key data VNil false None
      else
        match lookupM data (headKey key) with
        | None => mkFound "" None VNil false (Some ErrKeyNotFound)
        | Some d =>
            match tryToMapStr d with
            | None => mkFound "" None VNil false (Some ErrNotMap)
            | Some v => mapFind (restKey key) v
            end
        end
  end.
Proof.
  unfold mapFind, headKey, restKey.
  destruct (String.length key) as [|n] eqn:Hlen.
  - destruct key; [|discriminate]. simpl.
    destruct (lookupM data ""); reflexivity.
  - simpl. destruct (lookupM data key); [reflexivity|].
    destruct (Z.ltb_spec (IndexRune key dot) 0) as [|Hidx]; [reflexivity|].
    destruct (lookupM data _) as [d|]; [|reflexivity].
    destruct (tryToMapStr d) as [v|]; [|reflexivity].
    apply mapFind_loop_enough; [|lia].
    apply rest_shorter; [assumption|lia].
Qed.

Lemma GetValue_unfold (m : M) (key : string) :
  GetValue m key =
  match lookupM m key with
  | Some v => (v, None)
  | None =>
      if IndexRune key dot <? 0 then (VNil, Some ErrKeyNotFound)
      else
        match lookupM m (headKey key) with
        | None => (VNil, Some ErrKeyNotFound)
        | Some d =>
            match tryToMapStr d with
            | None => (VNil, Some ErrNotMap)
            | Some sub => GetValue sub (restKey key)
            end
        end
  end.
Proof.
  unfold GetValue. rewrite mapFind_unfold.
  destruct (lookupM m key); [reflexivity|].
  destruct (IndexRune key dot <? 0); [reflexivity|].
  destruct (lookupM m (headKey key)) as [d|]; [|reflexivity].
  destruct (tryToMapStr d); reflexivity.
Qed.

Lemma Put_loop_enough (n n' : nat) (key : string) (v : value) (data : M) :
  (String.length key <= n)%nat -> (String.length key <= n')%nat ->
  Put_loop n key v data = Put_loop n' key v data.
Proof.
  revert n' key data. induction n as [|n IH]; intros n' key data Hn Hn'.
  - destruct key; simpl in Hn; [|lia].
    destruct n'; simpl; destruct (lookupM data ""); reflexivity.
  - destruct n' as [|n'].
    + destruct key; simpl in Hn'; [|lia].
      simpl; destruct (lookupM data ""); reflexivity.
    + simpl. destruct (lookupM data key); [reflexivity|].
      destruct (Z.ltb_spec (IndexRune key dot) 0) as [|Hidx]; [reflexivity|].
      destruct data as [g|]; [|reflexivity].
      destruct (tryToMapStr _) as [sub|]; [|reflexivity].
      rewrite (IH n'); [reflexivity| |]; apply rest_shorter; assumption.
Qed.

(** One turn of [Put]. *)
Lemma Put_unfold (g : gmap string value) (key : string) (v : value) :
  Put (Some g) key v =
  match g !! key with
  | Some old => Done (<[key := v]> g, old, None)
  | None =>
      if IndexRune key dot <? 0 then Done (<[key := v]> g, VNil, None)
      else
        match tryToMapStr (default (VMap (Some ∅)) (g !! headKey key)) with
        | None => Done (g, VNil, Some ErrNotMap)
        | Some sub =>
            match Put sub (restKey key) v with
            | Done (sub', old, e) => Done (<[headKey key := VMap (Some sub')]> g, old, e)
            | Panic => Panic
            end
        end
  end.
Proof.
  unfold Put, headKey, restKey.
  destruct (String.length key) as [|n] eqn:Hlen.
  - destruct key; [|discriminate]. simpl.
    destruct (g !! ""); reflexivity.
  - simpl. destruct (g !! key); [reflexivity|].
    destruct (Z.ltb_spec (IndexRune key dot) 0) as [|Hidx]; [reflexivity|].
    unfold default. destruct (g !! _) as [d|]; simpl.
    + destruct (tryToMapStr d) as [sub|]; [|reflexivity].
      rewrite (Put_loop_enough n (String.length (sliceFrom key (Z.to_nat (IndexRune key dot + 1)))));
        [reflexivity| |lia].
      apply rest_shorter; [assumption|lia].
    + rewrite (Put_loop_enough n (String.length (sliceFrom key (Z.to_nat (IndexRune key dot + 1)))));
        [reflexivity| |lia].
      apply rest_shorter; [assumption|lia].
Qed.

Lemma Put_nil (key : string) (v : value) : Put None key v = Panic.
Proof.
  unfold Put. destruct (String.length key); simpl;
    destruct (IndexRune key dot <? 0); reflexivity.
Qed.

(** ** What [Put] changes and what [GetValue] reads *)

(** [Put] leaves every top-level entry alone except the one under the
    key itself and the one under its first segment. *)
Lemma Put_frame (g g' : gmap string value) (key : string) (v old : value) (e : option error) :
  Put (Some g) key v = Done (g', old, e) ->
  forall t, t <> key -> t <> headKey key -> g' !! t = g !! t.
Proof.
  rewrite Put_unfold. intros HPut t Hkey Hhead.
  destruct (g !! key).
  { injection HPut as <- _ _. by rewrite lookup_insert_ne. }
  destruct (IndexRune key dot <? 0).
  { injection HPut as <- _ _. by rewrite lookup_insert_ne. }
  destruct (tryToMapStr _) as [sub|]; [|by injection HPut as <- _ _].
  destruct (Put sub (restKey key) v) as [[[sub' o'] e']|]; [|discriminate].
  injection HPut as <- _ _. by rewrite lookup_insert_ne.
Qed.

(** [GetValue] reads the top level under the key and under its first
    segment only. *)
Lemma GetValue_agree (g g' : gmap string value) (key : string) :
  g' !! key = g !! key ->
  g' !! headKey key = g !! headKey key ->
  GetValue (Some g') key = GetValue (Some g) key.
Proof.
  intros Hkey Hhead. rewrite (GetValue_unfold (Some g')), (GetValue_unfold (Some g)).
  simpl. by rewrite Hkey, Hhead.
Qed.

Lemma GetValue_nil (key : string) : GetValue None key = (VNil, Some ErrKeyNotFound).
Proof.
  rewrite GetValue_unfold. simpl. by destruct (IndexRune key dot <? 0).
Qed.

(** A key without a dot is put at the top level. *)
Lemma Put_plain (g : gmap string value) (key : string) (v : value) :
  IndexRune key dot < 0 ->
  Put (Some g) key v = Done (<[key := v]> g, default VNil (g !! key), None).
Proof.
  intros Hidx. rewrite Put_unfold.
  destruct (g !! key); [reflexivity|].
  destruct (Z.ltb_spec (IndexRune key dot) 0); [reflexivity|lia].
Qed.

(** After a [Put] without error the value is found under the key. *)
Lemma GetValue_Put (key : string) (g g' : gmap string value) (v old : value) :
  Put (Some g) key v = Done (g', old, None) ->
  GetValue (Some g') key = (v, None).
Proof.
  remember (String.length key) as n eqn:Hn.
  assert (String.length key <= n)%nat as Hle by lia. clear Hn.
  revert key g g' old Hle.
  induction n as [|n IH]; intros key g g' old Hle; rewrite Put_unfold, GetValue_unfold; simpl.
  - destruct key; [|simpl in Hle; lia]. simpl.
    destruct (g !! "").
    + intros [= <- _]. by rewrite lookup_insert_eq.
    + intros [= <- _]. by rewrite lookup_insert_eq.
  - destruct (g !! key) eqn:Hkey.
    { intros [= <- _]. by rewrite lookup_insert_eq. }
    destruct (Z.ltb_spec (IndexRune key dot) 0) as [|Hidx].
    { intros [= <- _]. by rewrite lookup_insert_eq. }
    destruct (tryToMapStr _) as [[s|]|] eqn:Hsub; [| |discriminate].
    + destruct (Put (Some s) (restKey key) v) as [[[sub' o'] e']|] eqn:Hrec; [|discriminate].
      intros [= <- _ ->].
      assert (headKey key <> key) as Hne.
      { unfold headKey. destruct (Z.ltb_spec (IndexRune key dot) 0); [lia|].
        by apply head_ne_key. }
      rewrite lookup_insert_ne, Hkey by done.
      rewrite lookup_insert_eq. simpl.
      apply (IH _ _ _ _ (rest_shorter key n Hidx Hle) Hrec).
    + by rewrite Put_nil.
Qed.

(** A [Put] at a key of two segments whose section is ready goes through. *)
Lemma Put_ready (g : gmap string value) (key : string) (v : value) :
  sectionReady g (headKey key) = true ->
  IndexRune (restKey key) dot < 0 ->
  exists g' old, Put (Some g) key v = Done (g', old, None).
Proof.
  intros Hready Hrest. rewrite Put_unfold.
  destruct (g !! key); [eauto|].
  destruct (IndexRune key dot <? 0); [eauto|].
  unfold sectionReady in Hready.
  destruct (g !! headKey key) as [[| |[s|]|]|]; simpl; try discriminate.
  - rewrite (Put_plain _ _ _ Hrest). eauto.
  - rewrite (Put_plain _ _ _ Hrest). eauto.
Qed.

(** A [Put] at a key of two segments into a document that has neither
    the key nor its section creates the section with one entry. *)
Lemma Put_fresh (g : gmap string value) (key : string) (v : value) :
  g !! key = None ->
  g !! headKey key = None ->
  0 <= IndexRune key dot ->
  IndexRune (restKey key) dot < 0 ->
  Put (Some g) key v
  = Done (<[headKey key := VMap (Some {[ restKey key := v ]})]> g, VNil, None).
Proof.
  intros Hkey Hhead Hidx Hrest. rewrite Put_unfold, Hkey, Hhead.
  destruct (Z.ltb_spec (IndexRune key dot) 0); [lia|]. simpl.
  rewrite (Put_plain _ _ _ Hrest). by rewrite lookup_empty.
Qed.

Lemma agreeOutside_refl (ks : list string) (g : gmap string value) : agreeOutside ks g g.
Proof. by intros t _. Qed.

(** The dropped-result [put] on a ready section. *)
Lemma put_ready (g : gmap string value) (key : string) (v : value) :
  sectionReady g (headKey key) = true ->
  IndexRune (restKey key) dot < 0 ->
  exists g', put (Some g) key v = ([], Done (Some g'))
             /\ GetValue (Some g') key = (v, None)
             /\ agreeOutside [key; headKey key] g g'.
Proof.
  intros Hready Hrest.
  destruct (Put_ready g key v Hready Hrest) as (g' & old & HPut).
  exists g'. unfold put. rewrite HPut. split; [done|]. split.
  - by eapply GetValue_Put.
  - intros t Ht. eapply Put_frame; [exact HPut| |]; set_solver.
Qed.

(** ** The four steps of [GenerateK8s] *)

Lemma deploymentHop_run (p : pod) (g : gmap string value) :
  sectionReady g "deployment" = true ->
  exists g',
    deploymentHop p (Some g) = (deploymentCalls p (Some g), Done (Some g'))
    /\ agreeOutside ["deployment.name"; "deployment"] g g'
    /\ (deploymentHopCalls p (Some g) = false -> g' = g)
    /\ (forall gen n,
          Deployment (addResourceMetadata p) = true ->
          replicaset p = Some gen ->
          fst (GetValue (Some g) "replicaset.name") = VStr n ->
          let d := fst (GetValue (peerGenerateFromName gen n []) "deployment.name") in
          if isEmptyString d then g' = g
          else GetValue (Some g') "deployment.name" = (d, None)).
Proof.
  intros Hready. unfold deploymentHop, deploymentHopCalls, deploymentCalls.
  destruct (Deployment (addResourceMetadata p)); simpl.
  2:{ exists g. split_and!; [done|apply agreeOutside_refl|done|done]. }
  destruct (replicaset p) as [gen|] eqn:Hrs; simpl.
  2:{ exists g. split_and!; [done|apply agreeOutside_refl|done|done]. }
  destruct (GetValue (Some g) "replicaset.name") as [rsName e] eqn:Hname; simpl.
  destruct rsName as [|n|m|o]; simpl;
    try (exists g; split_and!; [done|apply agreeOutside_refl|done|intros; simplify_eq]).
  destruct (GetValue (peerGenerateFromName gen n []) "deployment.name") as [d e'] eqn:Hd.
  destruct (isEmptyString d) eqn:Hempty; simpl.
  - exists g. split_and!; [done|apply agreeOutside_refl|done|].
    intros gen' n' _ [= <-] [= <-]. by rewrite Hd; simpl; rewrite Hempty.
  - destruct (put_ready g "deployment.name" d) as (g' & Hput & Hget & Hframe);
      [exact Hready|section_key|].
    exists g'. rewrite Hput. split_and!; [done|exact Hframe|done|].
    intros gen' n' _ [= <-] [= <-]. by rewrite Hd; simpl; rewrite Hempty.
Qed.

Lemma cronJobHop_run (p : pod) (g : gmap string value) :
  sectionReady g "cronjob" = true ->
  (cronJobHopCalls p (Some g) = true -> isSome (replicaset p) = true) ->
  exists g',
    cronJobHop p (Some g) = (cronJobCalls p (Some g), Done (Some g'))
    /\ agreeOutside ["cronjob.name"; "cronjob"] g g'
    /\ (cronJobHopCalls p (Some g) = false -> g' = g).
Proof.
  intros Hready. unfold cronJobHop, cronJobHopCalls, cronJobCalls.
  destruct (CronJob (addResourceMetadata p)); simpl.
  2:{ exists g. split_and!; [done|apply agreeOutside_refl|done]. }
  destruct (job p) as [jgen|] eqn:Hjob; simpl.
  2:{ exists g. split_and!; [done|apply agreeOutside_refl|done]. }
  destruct (GetValue (Some g) "job.name") as [jobName e] eqn:Hname; simpl.
  destruct jobName as [|n|m|o]; simpl;
    try (exists g; split_and!; [done|apply agreeOutside_refl|done]).
  intros Hrs. destruct (replicaset p) as [gen|]; [|by specialize (Hrs eq_refl)]. simpl.
  destruct (GetValue (peerGenerateFromName gen n []) "cronjob.name") as [d e'] eqn:Hd.
  destruct (isEmptyString d) eqn:Hempty; simpl.
  - exists g. split_and!; [done|apply agreeOutside_refl|done].
  - destruct (put_ready g "cronjob.name" d) as (g' & Hput & Hget & Hframe);
      [exact Hready|section_key|].
    exists g'. rewrite Hput. split_and!; [done|exact Hframe|done].
Qed.

Lemma nodeHop_run (p : pod) (po : kubernetes.Pod) (g : gmap string value) :
  sectionReady g "node" = true ->
  let nodeName := kubernetes.NodeName (kubernetes.Spec po) in
  exists g',
    nodeHop p po (Some g) = (nodeCalls p po, Done (Some g'))
    /\ agreeOutside ["node"; "node.name"] g g'
    /\ match nodeAnswer p po with
       | Some meta => g' = <["node" := index (Some meta) "node"]> g
       | None =>
           GetValue (Some g') "node.name" = (VStr nodeName, None)
           /\ (g !! "node" = None -> g !! "node.name" = None ->
               g' = <["node" := VMap (Some {[ "name" := VStr nodeName ]})]> g)
       end.
Proof.
  intros Hready nodeName. unfold nodeHop, nodeCalls, nodeAnswer. fold nodeName.
  assert (exists g', put (Some g) "node.name" (VStr nodeName) = ([], Done (Some g'))
            /\ agreeOutside ["node"; "node.name"] g g'
            /\ GetValue (Some g') "node.name" = (VStr nodeName, None)
            /\ (g !! "node" = None -> g !! "node.name" = None ->
                g' = <["node" := VMap (Some {[ "name" := VStr nodeName ]})]> g))
    as (gf & Hputf & Hframef & Hgetf & Hfreshf).
  { destruct (put_ready g "node.name" (VStr nodeName)) as (g' & Hput & Hget & Hframe);
      [exact Hready|section_key|].
    exists g'. split_and!; [done| |done|].
    - intros t Ht. apply Hframe. intros Hin. apply Ht.
      rewrite !elem_of_cons in Hin. rewrite !elem_of_cons. tauto.
    - intros Hnode Hflat. unfold put in Hput.
      rewrite (Put_fresh g "node.name" (VStr nodeName)) in Hput;
        [|done|done|section_key|section_key].
      by injection Hput as <-. }
  destruct (node p) as [gen|]; simpl.
  - destruct (peerGenerateFromName gen nodeName [WithMetadata "node"]) as [meta|] eqn:Hmeta; simpl.
    + unfold put. rewrite Put_plain by section_key. simpl.
      eexists. split_and!; [done| |done].
      intros t Ht. rewrite lookup_insert_ne; [done|].
      intros <-. apply Ht. by left.
    + rewrite Hputf. exists gf. by split_and!.
  - rewrite Hputf. exists gf. by split_and!.
Qed.

Lemma podIPStep_run (po : kubernetes.Pod) (g : gmap string value) :
  sectionReady g "pod" = true ->
  let ip := kubernetes.PodIP (kubernetes.Status po) in
  exists g',
    podIPStep po (Some g) = ([], Done (Some g'))
    /\ agreeOutside ["pod.ip"; "pod"] g g'
    /\ (if String.eqb ip "" then g' = g
        else GetValue (Some g') "pod.ip" = (VStr ip, None)).
Proof.
  intros Hready ip. unfold podIPStep. fold ip.
  destruct (String.eqb ip ""); simpl.
  - exists g. split_and!; [done|apply agreeOutside_refl|done].
  - destruct (put_ready g "pod.ip" (VStr ip)) as (g' & Hput & Hget & Hframe);
      [exact Hready|section_key|].
    exists g'. by split_and!.
Qed.

Lemma sectionReady_outside (ks : list string) (g g' : gmap string value) (k : string) :
  agreeOutside ks g g' -> k ∉ ks -> sectionReady g' k = sectionReady g k.
Proof. intros Hagree Hk. unfold sectionReady. by rewrite (Hagree k Hk). Qed.

Lemma GetValue_outside (ks : list string) (g g' : gmap string value) (key : string) :
  agreeOutside ks g g' -> key ∉ ks -> headKey key ∉ ks ->
  GetValue (Some g') key = GetValue (Some g) key.
Proof. intros Hagree Hkey Hhead. apply GetValue_agree; by apply Hagree. Qed.

Lemma readyBase_sections (g : gmap string value) :
  readyBase (Some g) = true ->
  sectionReady g "deployment" = true /\ sectionReady g "cronjob" = true
  /\ sectionReady g "node" = true /\ sectionReady g "pod" = true.
Proof.
  unfold readyBase. simpl. rewrite !andb_true_iff. tauto.
Qed.

(** A pod whose base document is ready runs through the four steps,
    unless the CronJob hop calls through a [replicaset] field that is
    nil. *)
Lemma GenerateK8s_run (p : pod) (po : kubernetes.Pod) (opts : list FieldOptions)
    (g : gmap string value) :
  baseDoc p po opts = Some g ->
  readyBase (Some g) = true ->
  (cronJobHopCalls p (Some g) = true -> isSome (replicaset p) = true) ->
  exists g1 g2 g3 g4,
    GenerateK8s p (kubernetes.ResPod po) opts
    = ((deploymentCalls p (Some g) ++ cronJobCalls p (Some g) ++ nodeCalls p po)%list,
       Done (Some g4))
    /\ deploymentHop p (Some g) = (deploymentCalls p (Some g), Done (Some g1))
    /\ cronJobHop p (Some g1) = (cronJobCalls p (Some g), Done (Some g2))
    /\ nodeHop p po (Some g2) = (nodeCalls p po, Done (Some g3))
    /\ podIPStep po (Some g3) = ([], Done (Some g4))
    /\ agreeOutside ["deployment.name"; "deployment"] g g1
    /\ agreeOutside ["cronjob.name"; "cronjob"] g1 g2
    /\ agreeOutside ["node"; "node.name"] g2 g3
    /\ agreeOutside ["pod.ip"; "pod"] g3 g4
    /\ sectionReady g1 "cronjob" = true
    /\ sectionReady g2 "node" = true
    /\ sectionReady g3 "pod" = true
    /\ cronJobHopCalls p (Some g1) = cronJobHopCalls p (Some g).
Proof.
  intros Hbase Hready Hcron.
  destruct (readyBase_sections g Hready) as (Rd & Rc & Rn & Rp).
  destruct (deploymentHop_run p g Rd) as (g1 & H1 & F1 & _).
  assert (sectionReady g1 "cronjob" = true) as Rc1.
  { rewrite (sectionReady_outside _ _ _ _ F1); [done|other_key]. }
  assert (GetValue (Some g1) "job.name" = GetValue (Some g) "job.name") as Hjob.
  { apply (GetValue_outside _ _ _ _ F1); other_key. }
  assert (cronJobHopCalls p (Some g1) = cronJobHopCalls p (Some g)) as Hcalls.
  { unfold cronJobHopCalls. by rewrite Hjob. }
  destruct (cronJobHop_run p g1 Rc1) as (g2 & H2 & F2 & _).
  { by rewrite Hcalls. }
  replace (cronJobCalls p (Some g1)) with (cronJobCalls p (Some g)) in H2
    by (unfold cronJobCalls; by rewrite Hjob).
  assert (sectionReady g2 "node" = true) as Rn2.
  { rewrite (sectionReady_outside _ _ _ _ F2), (sectionReady_outside _ _ _ _ F1);
      [done|other_key|other_key]. }
  destruct (nodeHop_run p po g2 Rn2) as (g3 & H3 & F3 & _).
  assert (sectionReady g3 "pod" = true) as Rp3.
  { rewrite (sectionReady_outside _ _ _ _ F3), (sectionReady_outside _ _ _ _ F2),
      (sectionReady_outside _ _ _ _ F1); [done|other_key..]. }
  destruct (podIPStep_run po g3 Rp3) as (g4 & H4 & F4 & _).
  exists g1, g2, g3, g4.
  split_and!; [|exact H1|exact H2|exact H3|exact H4|done..].
  unfold GenerateK8s. fold (baseDoc p po opts). rewrite Hbase.
  rewrite H1. simpl. rewrite H2. simpl. rewrite H3. simpl. rewrite H4. simpl.
  by rewrite !app_nil_r, app_assoc.
Qed.

(** ** Calls by field *)

Lemma callsVia_app (via : Peer) (a b : list Call) :
  callsVia via (a ++ b) = (callsVia via a ++ callsVia via b)%list.
Proof. apply filter_app. Qed.

Lemma callsVia_hopCall (via via' : Peer) (v : value) :
  callsVia via (hopCall via' v) = if decide (via' = via) then hopCall via' v else [].
Proof.
  unfold callsVia, hopCall. destruct v; simpl; try by destruct (decide _).
  rewrite filter_cons; simpl. by destruct (decide (via' = via)).
Qed.

Lemma callsVia_deploymentCalls (via : Peer) (p : pod) (out : M) :
  callsVia via (deploymentCalls p out)
  = if decide (ViaReplicaset = via) then deploymentCalls p out else [].
Proof.
  unfold deploymentCalls. destruct (_ && _); [apply callsVia_hopCall|].
  by destruct (decide _).
Qed.

Lemma callsVia_cronJobCalls (via : Peer) (p : pod) (out : M) :
  callsVia via (cronJobCalls p out)
  = if decide (ViaReplicaset = via) then cronJobCalls p out else [].
Proof.
  unfold cronJobCalls. destruct (_ && _); [apply callsVia_hopCall|].
  by destruct (decide _).
Qed.

Lemma callsVia_nodeCalls (via : Peer) (p : pod) (po : kubernetes.Pod) :
  callsVia via (nodeCalls p po) = if decide (ViaNode = via) then nodeCalls p po else [].
Proof.
  unfold nodeCalls, callsVia. destruct (isSome (node p)); [|by destruct (decide _)].
  rewrite filter_cons; simpl. by destruct (decide (ViaNode = via)).
Qed.


(** ** The Deployment hop *)


(** ** The pod IP *)

(** C9, as amended.  For a pod whose base document is ready and whose
    CronJob hop does not call through a nil [replicaset] field,
    [GenerateK8s] returns a document [out]: with a non-empty
    [Status.PodIP], [out] holds it under [pod.ip]; with an empty one
    nothing is written, so [out] has a [pod.ip] exactly if the base
    document came with one. *)
Theorem pod_ip_written_iff_nonempty (p : pod) (po : kubernetes.Pod)
    (opts : list FieldOptions) :
  readyBase (baseDoc p po opts) = true ->
  (cronJobHopCalls p (baseDoc p po opts) = true -> isSome (replicaset p) = true) ->
  exists tr out,
    GenerateK8s p (kubernetes.ResPod po) opts = (tr, Done (Some out))
    /\ (kubernetes.PodIP (kubernetes.Status po) <> "" ->
        GetValue (Some out) "pod.ip" = (VStr (kubernetes.PodIP (kubernetes.Status po)), None))
    /\ (kubernetes.PodIP (kubernetes.Status po) = "" ->
        hasKey (Some out) "pod.ip" = hasKey (baseDoc p po opts) "pod.ip").
Proof.
  intros Hready Hcron.
  destruct (baseDoc p po opts) as [g|] eqn:Hbase; [|discriminate].
  destruct (GenerateK8s_run p po opts g Hbase Hready Hcron) as
    (g1 & g2 & g3 & g4 & HG & H1 & H2 & H3 & H4 & F1 & F2 & F3 & F4 & Rc & Rn & Rp & Hc).
  destruct (podIPStep_run po g3 Rp) as (g4' & H4' & _ & Hip).
  rewrite H4 in H4'. injection H4' as <-.
  eexists _, g4. split; [exact HG|]. simpl in Hip. split.
  - intros Hne. destruct (String.eqb_spec (kubernetes.PodIP (kubernetes.Status po)) ""); done.
  - intros Hempty. rewrite Hempty in Hip. simpl in Hip. subst g4. unfold hasKey.
    rewrite (GetValue_outside _ _ _ _ F3), (GetValue_outside _ _ _ _ F2),
      (GetValue_outside _ _ _ _ F1); [done|other_key..].
Qed.

(** ** Deep update *)

Lemma vsize_lookup (d : gmap string value) (k : string) (v : value) :
  d !! k = Some v -> (vsize v < vsize (VMap (Some d)))%nat.
Proof.
  intros Hk. cbn [vsize].
  rewrite (map_fold_delete_L _ _ k v d); [lia| |done].
  intros. lia.
Qed.

(** Induction on values: a map is reached from its entries. *)
Lemma value_map_ind (P : value -> Prop) :
  P VNil ->
  (forall s, P (VStr s)) ->
  P (VMap None) ->
  (forall d, (forall k v, d !! k = Some v -> P v) -> P (VMap (Some d))) ->
  (forall n, P (VOther n)) ->
  forall v, P v.
Proof.
  intros Hnil Hstr Hnilmap Hmap Hother v.
  remember (vsize v) as n eqn:Hn.
  assert (vsize v <= n)%nat as Hle by lia. clear Hn.
  revert v Hle. induction n as [|n IH]; intros v Hle.
  - destruct v as [| |[d|]|]; simpl in Hle; lia.
  - destruct v as [|s|[d|]|o]; auto.
    apply Hmap. intros k w Hk. apply IH.
    pose proof (vsize_lookup d k w Hk). lia.
Qed.

(** The loop of [deepUpdateMap], entry by entry. *)
Lemma deepUpdateMap_lookup (m : gmap string value) (d : gmap string value) (k : string) :
  deepUpdateMap m (Some d) !! k
  = match d !! k with
    | Some v => Some (deepUpdateEntry (m !! k) v)
    | None => m !! k
    end.
Proof.
  unfold deepUpdateMap. revert k.
  apply (map_fold_weak_ind (fun r d' => forall k,
    r !! k = match d' !! k with
             | Some v => Some (deepUpdateEntry (m !! k) v)
             | None => m !! k
             end)).
  - intros k. by rewrite lookup_empty.
  - intros i x d' r Hi IH k.
    destruct (decide (i = k)) as [<-|Hne].
    + rewrite !lookup_insert_eq. by rewrite (IH i), Hi.
    + rewrite !lookup_insert_ne by done. apply IH.
Qed.

Lemma deepUpdateEntry_leaf (old : option value) (v : value) :
  isLeaf v = true -> deepUpdateEntry old v = v.
Proof. by destruct v. Qed.

Lemma deepUpdateEntry_map (old : option value) (val : M) :
  deepUpdateEntry old (VMap val) = deepUpdateValue old val.
Proof.
  unfold deepUpdateValue.
  destruct old as [[| |[sub|]|]|]; try reflexivity.
  destruct val; reflexivity.
Qed.

Lemma specDeepMerge_lookup (a : gmap string value) (y : gmap string value) (k : string) :
  specDeepMerge a (Some y) !! k
  = match y !! k with
    | Some v => Some (specMergeValue (a !! k) v)
    | None => a !! k
    end.
Proof.
  unfold specDeepMerge. rewrite lookup_union, map_lookup_imap.
  destruct (y !! k); simpl; [|by rewrite (left_id_L None _)].
  by destruct (a !! k).
Qed.

(** The library's deep update is the deep merge of the specification. *)
Lemma deepUpdateEntry_specMergeValue (v : value) :
  forall old, deepUpdateEntry old v = specMergeValue old v.
Proof.
  induction v as [|s| |d IH|n] using value_map_ind; intros old;
    try by destruct old as [[| |[?|]|]|].
  destruct old as [[| |[sub|]|]|]; try reflexivity.
  rewrite deepUpdateEntry_map. unfold deepUpdateValue.
  change (specMergeValue (Some (VMap (Some sub))) (VMap (Some d)))
    with (VMap (Some (specDeepMerge sub (Some d)))).
  do 2 f_equal. apply map_eq. intros k.
  rewrite deepUpdateMap_lookup, specDeepMerge_lookup.
  destruct (d !! k) as [v|] eqn:Hk; [|done].
  by rewrite (IH k v Hk).
Qed.

Lemma DeepUpdate_specDeepMerge (m : gmap string value) (d : M) :
  DeepUpdate m d = specDeepMerge m d.
Proof.
  destruct d as [g|]; [|reflexivity].
  apply map_eq. intros k. unfold DeepUpdate.
  rewrite deepUpdateMap_lookup, specDeepMerge_lookup.
  destruct (g !! k); [|done]. by rewrite deepUpdateEntry_specMergeValue.
Qed.

(** A leaf of the document merged in is found under the same path in the
    result. *)
Lemma deepUpdateMap_leaf (path : list string) :
  forall (m : gmap string value) (d : M) (v : value),
    path <> [] ->
    lookupPath path (VMap d) = Some v ->
    isLeaf v = true ->
    lookupPath path (VMap (Some (deepUpdateMap m d))) = Some v.
Proof.
  induction path as [|k rest IH]; intros m d v Hne Hpath Hleaf; [done|].
  destruct d as [g|]; [|done]. simpl in Hpath. cbn [lookupPath].
  rewrite deepUpdateMap_lookup.
  destruct (g !! k) as [w|] eqn:Hk; [|done].
  destruct rest as [|k' rest'].
  { simpl in Hpath. injection Hpath as ->. by rewrite deepUpdateEntry_leaf. }
  destruct w as [| |val|]; try done.
  rewrite deepUpdateEntry_map. unfold deepUpdateValue.
  destruct (m !! k) as [[| |[sub|]|]|]; try done.
  by apply IH.
Qed.

(** ** [range] in any order gives the same map *)

Lemma rangeApply_lookup (l : list (string * value)) :
  forall (m : gmap string value) (k : string),
    NoDup l.*1 ->
    rangeApply m l !! k
    = match (list_to_map l : gmap string value) !! k with
      | Some v => Some (deepUpdateEntry (m !! k) v)
      | None => m !! k
      end.
Proof.
  induction l as [|[k0 v0] rest IH]; intros m k Hnd; [done|].
  apply NoDup_cons in Hnd as [Hk0 Hnd].
  change (rangeApply m ((k0, v0) :: rest))
    with (rangeApply (<[k0 := deepUpdateEntry (m !! k0) v0]> m) rest).
  rewrite (IH _ _ Hnd), list_to_map_cons.
  destruct (decide (k0 = k)) as [<-|Hne].
  - rewrite lookup_insert_eq, (not_elem_of_list_to_map_1 rest k0 Hk0).
    by rewrite lookup_insert_eq.
  - by rewrite !lookup_insert_ne.
Qed.

Lemma rangeApply_any_order (m d : gmap string value) (order : list (string * value)) :
  order ≡ₚ map_to_list d ->
  rangeApply m order = deepUpdateMap m (Some d).
Proof.
  intros Hperm.
  assert (NoDup order.*1) as Hnd.
  { rewrite Hperm. apply NoDup_fst_map_to_list. }
  apply map_eq. intros k.
  rewrite (rangeApply_lookup _ _ _ Hnd), deepUpdateMap_lookup.
  by rewrite (list_to_map_proper _ _ Hnd Hperm), list_to_map_to_list.
Qed.

(** Whatever order each [range] takes, the loop ends in the map
    [deepUpdateMap] computes. *)
Lemma rangeUpdate_deterministic (m : gmap string value) (l : list (string * value))
    (m' : gmap string value) :
  rangeUpdate m l m' -> m' = rangeApply m l.
Proof.
  intros Hrun.
  induction Hrun using rangeUpdate_mut
    with (P0 := fun old v new _ => new = deepUpdateEntry old v).
  - done.
  - by subst.
  - by rewrite deepUpdateEntry_leaf.
  - rewrite deepUpdateEntry_map. unfold deepUpdateValue.
    destruct old as [[| |[sub|]|]|]; try done. by destruct (n sub).
  - done.
  - rewrite deepUpdateEntry_map. unfold deepUpdateValue.
    subst. by rewrite (rangeApply_any_order _ _ _ p).
Qed.

Lemma deepUpdateRun_deterministic (m : gmap string value) (d : M) (m' : gmap string value) :
  deepUpdateRun m d m' -> m' = DeepUpdate m d.
Proof.
  destruct 1 as [m|m d order m' Hperm Hrun]; [done|].
  rewrite (rangeUpdate_deterministic _ _ _ Hrun).
  by apply rangeApply_any_order.
Qed.

(** Every value can be merged in: the loop has a run. *)
Lemma rangeUpdate_total (l : list (string * value)) :
  (forall k v, (k, v) ∈ l -> forall old, entryUpdate old v (deepUpdateEntry old v)) ->
  forall m, rangeUpdate m l (rangeApply m l).
Proof.
  induction l as [|[k v] rest IH]; intros Hentries m; [constructor|].
  econstructor.
  - apply (Hentries k v). by left.
  - apply IH. intros k' v' Hin. apply (Hentries k' v'). by right.
Qed.

Lemma entryUpdate_total (v : value) :
  forall old, entryUpdate old v (deepUpdateEntry old v).
Proof.
  induction v as [|s| |d IH|n] using value_map_ind; intros old;
    try (by apply entryUpdate_scalar).
  - destruct old as [[| |[sub|]|]|]; try (by apply entryUpdate_replace).
    apply entryUpdate_nil.
  - destruct old as [[| |[sub|]|]|]; try (by apply entryUpdate_replace).
    rewrite deepUpdateEntry_map. unfold deepUpdateValue.
    rewrite <- (rangeApply_any_order sub d (map_to_list d)) by done.
    apply (entryUpdate_merge sub d (map_to_list d)); [done|].
    apply rangeUpdate_total. intros k v Hin old.
    apply (IH k). by apply elem_of_map_to_list.
Qed.

Lemma deepUpdateRun_total (m : gmap string value) (d : M) :
  deepUpdateRun m d (DeepUpdate m d).
Proof.
  destruct d as [g|]; [|constructor].
  unfold DeepUpdate. rewrite <- (rangeApply_any_order m g (map_to_list g)) by done.
  apply (deepUpdateRun_range m g (map_to_list g)); [done|].
  apply rangeUpdate_total. intros k v _. apply entryUpdate_total.
Qed.

Lemma GenerateRun_total (p : pod) (obj : kubernetes.Resource) (opts : list FieldOptions) :
  GenerateRun p obj opts (Generate p obj opts).
Proof.
  unfold Generate.
  destruct (GenerateK8s p obj opts) as [tr [k8s|]] eqn:HK; simpl.
  - rewrite app_nil_r. eapply GenerateRun_done; [exact HK|]. apply deepUpdateRun_total.
  - by apply GenerateRun_panic.
Qed.

(** ** The merge law *)

(** C5.  [Generate] is [GenerateK8s] wrapped under ["kubernetes"] with
    [GenerateECS] deep-merged into it, a panic of [GenerateK8s] passing
    through.  Every leaf of the ECS document is found under its path in
    the result, and without a ["kubernetes"] entry in the ECS document
    the native document sits unchanged under ["kubernetes"]. *)
Theorem generate_merge_law (p : pod) (obj : kubernetes.Resource) (opts : list FieldOptions) :
  Generate p obj opts = specGenerate p obj opts
  /\ (forall tr doc path v,
        Generate p obj opts = (tr, Done (Some doc)) ->
        path <> [] ->
        lookupPath path (VMap (GenerateECS p obj)) = Some v ->
        isLeaf v = true ->
        lookupPath path (VMap (Some doc)) = Some v)
  /\ (forall tr doc,
        Generate p obj opts = (tr, Done (Some doc)) ->
        lookupM (GenerateECS p obj) "kubernetes" = None ->
        exists k8s, GenerateK8s p obj opts = (tr, Done k8s)
                    /\ doc !! "kubernetes" = Some (VMap k8s)).
Proof.
  unfold Generate, specGenerate. split_and!.
  - destruct (GenerateK8s p obj opts) as [tr [k8s|]]; simpl; [|done].
    by rewrite DeepUpdate_specDeepMerge.
  - intros tr doc path v HG Hne Hpath Hleaf.
    destruct (GenerateK8s p obj opts) as [tr' [k8s|]]; simpl in HG; [|done].
    injection HG as _ <-. by apply deepUpdateMap_leaf.
  - intros tr doc HG Hecs.
    destruct (GenerateK8s p obj opts) as [tr' [k8s|]]; simpl in HG; [|done].
    injection HG as <- <-. exists k8s. rewrite app_nil_r. split; [done|].
    unfold DeepUpdate. destruct (GenerateECS p obj) as [e|].
    + rewrite deepUpdateMap_lookup. simpl in Hecs. by rewrite Hecs, lookup_singleton_eq.
    + unfold deepUpdateMap. by rewrite lookup_singleton_eq.
Qed.

(** ** Runs of [Generate] *)

Lemma GenerateRun_Generate (p : pod) (obj : kubernetes.Resource) (opts : list FieldOptions)
    (r : Eff M) :
  GenerateRun p obj opts r -> r = Generate p obj opts.
Proof.
  unfold Generate. destruct 1 as [tr k8s meta HK Hrun|tr HK]; rewrite HK; simpl.
  - by rewrite app_nil_r, (deepUpdateRun_deterministic _ _ _ Hrun).
  - done.
Qed.

(** C10.  Two runs of [Generate] on the same generator, resource and
    options, with peers and projector answering the same, end alike:
    the same peer calls, and the same document or both in a panic,
    whatever order each [range] of the merge took. *)
Theorem generate_deterministic (p : pod) (obj : kubernetes.Resource)
    (opts : list FieldOptions) (r1 r2 : Eff M) :
  GenerateRun p obj opts r1 ->
  GenerateRun p obj opts r2 ->
  r1 = r2.
Proof.
  intros H1 H2.
  by rewrite (GenerateRun_Generate _ _ _ _ H1), (GenerateRun_Generate _ _ _ _ H2).
Qed.

(** A run of the merge that takes the top-level entries in a given order. *)
Lemma deepUpdateRun_order (m d : gmap string value) (order : list (string * value)) :
  order ≡ₚ map_to_list d ->
  deepUpdateRun m (Some d) (rangeApply m order).
Proof.
  intros Hperm. apply (deepUpdateRun_range m d order); [done|].
  apply rangeUpdate_total. intros k v _. apply entryUpdate_total.
Qed.

(** ** Resources that are no pods *)

Lemma deepUpdateEntry_over_nil (old : option value) (v : value) :
  old = None \/ old = Some (VMap None) -> deepUpdateEntry old v = v.
Proof. intros [-> | ->]; by destruct v. Qed.

(** C4, as amended.  For a resource that is no pod, [GenerateK8s]
    returns nil, and [Generate] returns a document that is not nil: the
    entries of [GenerateECS], and a ["kubernetes"] entry holding the nil
    document unless [GenerateECS] brings its own.  Neither panics or
    calls a peer. *)
Theorem non_pod_generate (p : pod) (kind : string) (meta : kubernetes.ObjectMeta)
    (opts : list FieldOptions) :
  GenerateK8s p (kubernetes.ResOther kind meta) opts = ([], Done None)
  /\ Generate p (kubernetes.ResOther kind meta) opts
     = ([], Done (Some (match GenerateECS p (kubernetes.ResOther kind meta) with
                        | Some e => e ∪ {[ "kubernetes" := VMap None ]}
                        | None => {[ "kubernetes" := VMap None ]}
                        end))).
Proof.
  split; [reflexivity|].
  unfold Generate. simpl. do 3 f_equal.
  destruct (GenerateECS p _) as [e|]; [|reflexivity].
  apply map_eq. intros k. unfold DeepUpdate.
  rewrite deepUpdateMap_lookup, lookup_union.
  destruct (e !! k) as [v|]; simpl.
  - rewrite deepUpdateEntry_over_nil; [by destruct (_ !! k)|].
    destruct (decide ("kubernetes" = k)) as [<-|Hne].
    + right. by rewrite lookup_singleton_eq.
    + left. by rewrite lookup_singleton_ne.
  - by rewrite (left_id_L None _).
Qed.

(** C4 as stated fails: for a node, [Generate] returns a document with
    two entries. *)
Lemma generate_non_pod_is_not_nil :
  ~ (returnsNilOrEmpty (GenerateK8s sample.deploymentAll sample.aNode [])
     /\ returnsNilOrEmpty (Generate sample.deploymentAll sample.aNode [])).
Proof.
  intros [_ H].
  assert (isSome (lookupM match result (Generate sample.deploymentAll sample.aNode []) with
                          | Done r => r
                          | Panic => None
                          end "kubernetes") = true) as E by vm_refl.
  destruct H as [H|H]; rewrite H in E; [discriminate E|].
  unfold lookupM in E. by rewrite lookup_empty in E.
Qed.

(** ** Lookup by name *)

(** C8.  [GenerateFromName] returns nil, without a peer call, when the
    store is nil, when the store does not hold the name, and when what
    it holds under the name is no pod; for a stored pod it is
    [GenerateK8s] of that pod with the same options. *)
Theorem generate_from_name_lookup (p : pod) (name : string) (opts : list FieldOptions) :
  (store p = None -> GenerateFromName p name opts = ([], Done None))
  /\ (forall st obj e,
        store p = Some st -> GetByKey st name = (obj, false, e) ->
        GenerateFromName p name opts = ([], Done None))
  /\ (forall st obj e,
        store p = Some st -> GetByKey st name = (obj, true, e) ->
        (forall po, obj <> Some (kubernetes.ResPod po)) ->
        GenerateFromName p name opts = ([], Done None))
  /\ (forall st po e,
        store p = Some st -> GetByKey st name = (Some (kubernetes.ResPod po), true, e) ->
        GenerateFromName p name opts = GenerateK8s p (kubernetes.ResPod po) opts).
Proof.
  unfold GenerateFromName. split_and!.
  - by intros ->.
  - intros st obj e -> ->. done.
  - intros st obj e -> -> Hobj. destruct obj as [[po|kind meta]|]; [|done..].
    by destruct (Hobj po).
  - by intros st po e -> ->.
Qed.

Example generate_from_name_missing_pod :
  GenerateFromName sample.withStore "missing-pod" [] = ([], Done None).
Proof. by vm_compute. Qed.

Example generate_from_name_node :
  GenerateFromName sample.withStore "n1" [] = ([], Done None).
Proof. by vm_compute. Qed.

Example generate_from_name_pod :
  GenerateFromName sample.withStore "web-0" []
  = GenerateK8s sample.withStore (kubernetes.ResPod sample.webPod) [].
Proof. vm_refl. Qed.

(** ** The testable properties of the specification at sample inputs *)

Example deployment_name_resolved :
  exists out,
    result (GenerateK8s sample.deploymentAll (kubernetes.ResPod sample.webPod) [])
    = Done (Some out)
    /\ GetValue (Some out) "deployment.name" = (VStr "dep1", None).
Proof.
  exists (docOf (GenerateK8s sample.deploymentAll (kubernetes.ResPod sample.webPod) [])).
  split; vm_refl.
Qed.

Example deployment_name_absent_when_switched_off :
  exists out,
    result (GenerateK8s
              (sample.generator sample.baseRS sample.ecs None (Some sample.rsGen) None
                 false false None)
              (kubernetes.ResPod sample.webPod) [])
    = Done (Some out)
    /\ hasKey (Some out) "deployment.name" = false.
Proof.
  exists (docOf (GenerateK8s
                   (sample.generator sample.baseRS sample.ecs None (Some sample.rsGen) None
                      false false None)
                   (kubernetes.ResPod sample.webPod) [])).
  split; vm_refl.
Qed.

Example node_name_only_without_node_peer :
  exists out,
    result (GenerateK8s sample.deploymentMiss (kubernetes.ResPod sample.webPod) [])
    = Done (Some out)
    /\ out !! "node" = Some (sample.doc [("name", VStr "n1")]).
Proof.
  exists (docOf (GenerateK8s sample.deploymentMiss (kubernetes.ResPod sample.webPod) [])).
  split; vm_refl.
Qed.

Example pod_ip_absent_for_empty_ip :
  exists out,
    result (GenerateK8s sample.deploymentAll (kubernetes.ResPod (sample.mkPod "n1" "")) [])
    = Done (Some out)
    /\ hasKey (Some out) "pod.ip" = false.
Proof.
  exists (docOf (GenerateK8s sample.deploymentAll
                   (kubernetes.ResPod (sample.mkPod "n1" "")) [])).
  split; vm_refl.
Qed.

(** ** Where the code departs from the claims *)

(** C1.  A pod of Job ["job1"], the CronJob switch on, a Job peer that
    knows [cronjob.name = "cj1"] for it and a ReplicaSet peer: the one
    peer call goes through [p.replicaset] with the job's name, the Job
    peer is not called, and [cronjob.name] is written as nil. *)
Theorem cronjob_hop_calls_replicaset_peer :
  GetValue (peerGenerateFromName sample.jobGen "job1" []) "cronjob.name" = (VStr "cj1", None)
  /\ calls (GenerateK8s sample.cronBoth (kubernetes.ResPod sample.webPod) [])
     = [mkCall ViaReplicaset "job1" []]
  /\ callsVia ViaJob (calls (GenerateK8s sample.cronBoth (kubernetes.ResPod sample.webPod) [])) = []
  /\ exists out,
       result (GenerateK8s sample.cronBoth (kubernetes.ResPod sample.webPod) []) = Done (Some out)
       /\ GetValue (Some out) "cronjob.name" = (VNil, None).
Proof.
  split_and!; [vm_refl..|].
  exists (docOf (GenerateK8s sample.cronBoth (kubernetes.ResPod sample.webPod) [])).
  split; vm_refl.
Qed.

(** The Job peer is never called, whatever the input. *)
Lemma GenerateK8s_never_calls_job (p : pod) (obj : kubernetes.Resource)
    (opts : list FieldOptions) :
  callsVia ViaJob (calls (GenerateK8s p obj opts)) = [].
Proof.
  assert (forall out key v, calls (put out key v) = []) as Hput.
  { intros out key v. unfold put. by destruct (Put out key v) as [[[? ?] ?]|]. }
  assert (forall (c : Eff M) (f : M -> Eff M),
            callsVia ViaJob (calls c) = [] ->
            (forall a, callsVia ViaJob (calls (f a)) = []) ->
            callsVia ViaJob (calls (c ≫= f)) = []) as Hbind.
  { intros [tr [a|]] f Hc Hf; simpl in *; [|done].
    specialize (Hf a). destruct (f a) as [tr' r]. simpl in *.
    by rewrite callsVia_app, Hc, Hf. }
  assert (forall (via : Peer) (g : option MetaGen) name o (f : M -> Eff M),
            via <> ViaJob ->
            (forall a, calls (f a) = []) ->
            callsVia ViaJob (calls (callGenerateFromName via g name o ≫= f)) = []) as Hcall.
  { intros via g name o f Hvia Hf. apply Hbind.
    - destruct g; simpl; [|done]. unfold callsVia. rewrite filter_cons. simpl.
      by destruct (decide (via = ViaJob)).
    - intros a. by rewrite Hf. }
  destruct obj as [po|kind meta]; [|done]. unfold GenerateK8s.
  apply Hbind; [|intros out1; apply Hbind; [|intros out2; apply Hbind;
    [|intros out3; apply Hbind; [|done]]]].
  - unfold deploymentHop.
    destruct (Deployment _); [|done]. destruct (replicaset p) eqn:Hrs; [|done].
    destruct (GetValue _ "replicaset.name") as [[|n| |] e]; try done.
    rewrite <- Hrs. apply Hcall; [done|]. intros a.
    destruct (GetValue a "deployment.name") as [d e']. destruct (negb _); [apply Hput|done].
  - unfold cronJobHop.
    destruct (CronJob _); [|done]. destruct (job p); [|done].
    destruct (GetValue _ "job.name") as [[|n| |] e]; try done.
    apply Hcall; [done|]. intros a.
    destruct (GetValue a "cronjob.name") as [d e']. destruct (negb _); [apply Hput|done].
  - unfold nodeHop. destruct (node p) eqn:Hn; [|by rewrite Hput].
    rewrite <- Hn. apply Hcall; [done|]. intros [?|]; apply Hput.
  - unfold podIPStep. destruct (negb _); [by rewrite Hput|done].
Qed.

(** Without its peer a hop is skipped: the Deployment hop and the
    CronJob hop return the document as it is, the node hop falls back
    to the node name. *)
Lemma deploymentHop_without_peer (p : pod) (out : M) :
  replicaset p = None -> deploymentHop p out = mret out.
Proof. unfold deploymentHop. intros ->. by destruct (Deployment _). Qed.

Lemma cronJobHop_without_peer (p : pod) (out : M) :
  job p = None -> cronJobHop p out = mret out.
Proof. unfold cronJobHop. intros ->. by destruct (CronJob _). Qed.

Lemma nodeHop_without_peer (p : pod) (po : kubernetes.Pod) (out : M) :
  node p = None ->
  nodeHop p po out = put out "node.name" (VStr (kubernetes.NodeName (kubernetes.Spec po))).
Proof. unfold nodeHop. by intros ->. Qed.

(** C2.  The same pod with the Deployment switch off and no ReplicaSet
    peer: the CronJob hop calls through the nil [p.replicaset], and
    [GenerateK8s] panics. *)
Theorem cronjob_hop_panics_without_replicaset_peer :
  replicaset sample.cronOnly = None
  /\ GenerateK8s sample.cronOnly (kubernetes.ResPod sample.webPod) [] = ([], Panic).
Proof. split; by vm_compute. Qed.

(** C3.  A pod of ReplicaSet ["rs1"], the Deployment switch on, and a
    ReplicaSet peer that does not know ["rs1"]: the base document has
    no [deployment.name], the result has one, holding nil. *)
Theorem deployment_lookup_miss_writes_nil :
  peerGenerateFromName sample.rsMiss "rs1" [] = None
  /\ hasKey (baseDoc sample.deploymentMiss sample.webPod []) "deployment.name" = false
  /\ exists out,
       result (GenerateK8s sample.deploymentMiss (kubernetes.ResPod sample.webPod) [])
       = Done (Some out)
       /\ GetValue (Some out) "deployment.name" = (VNil, None)
       /\ hasKey (Some out) "deployment.name" = true.
Proof.
  split_and!; [vm_refl..|].
  exists (docOf (GenerateK8s sample.deploymentMiss (kubernetes.ResPod sample.webPod) [])).
  split_and!; vm_refl.
Qed.


(** ** The theorems at sample inputs *)


Lemma pod_ip_written_iff_nonempty_witness :
  readyBase (baseDoc sample.deploymentAll sample.webPod []) = true
  /\ (cronJobHopCalls sample.deploymentAll (baseDoc sample.deploymentAll sample.webPod []) = true ->
      isSome (replicaset sample.deploymentAll) = true)
  /\ exists tr out,
       GenerateK8s sample.deploymentAll (kubernetes.ResPod sample.webPod) [] = (tr, Done (Some out))
       /\ GetValue (Some out) "pod.ip" = (VStr "10.0.0.5", None).
Proof.
  split; [by vm_compute|]. split; [by vm_compute|].
  destruct (pod_ip_written_iff_nonempty sample.deploymentAll sample.webPod [])
    as (tr & out & HG & Hip & _); [by vm_compute..|].
  exists tr, out. split; [exact HG|]. by apply Hip.
Defined.

Lemma GenerateInOrder_run (p : pod) (obj : kubernetes.Resource) (opts : list FieldOptions)
    (d : gmap string value) (order : list (string * value)) :
  GenerateECS p obj = Some d ->
  order ≡ₚ map_to_list d ->
  GenerateRun p obj opts (GenerateInOrder p obj opts order).
Proof.
  intros Hecs Hperm. unfold GenerateInOrder.
  destruct (GenerateK8s p obj opts) as [tr [k8s|]] eqn:HK.
  - eapply GenerateRun_done; [exact HK|]. rewrite Hecs. by apply deepUpdateRun_order.
  - by apply GenerateRun_panic.
Qed.

Lemma generate_deterministic_witness :
  GenerateRun sample.mergeTwo (kubernetes.ResPod sample.webPod) []
    (GenerateInOrder sample.mergeTwo (kubernetes.ResPod sample.webPod) []
       (map_to_list sample.ecsTwo))
  /\ GenerateRun sample.mergeTwo (kubernetes.ResPod sample.webPod) []
       (GenerateInOrder sample.mergeTwo (kubernetes.ResPod sample.webPod) []
          (reverse (map_to_list sample.ecsTwo)))
  /\ GenerateInOrder sample.mergeTwo (kubernetes.ResPod sample.webPod) []
       (map_to_list sample.ecsTwo)
     = GenerateInOrder sample.mergeTwo (kubernetes.ResPod sample.webPod) []
         (reverse (map_to_list sample.ecsTwo)).
Proof.
  assert (GenerateRun sample.mergeTwo (kubernetes.ResPod sample.webPod) []
            (GenerateInOrder sample.mergeTwo (kubernetes.ResPod sample.webPod) []
               (map_to_list sample.ecsTwo))) as H1.
  { by apply (GenerateInOrder_run _ _ _ sample.ecsTwo). }
  assert (GenerateRun sample.mergeTwo (kubernetes.ResPod sample.webPod) []
            (GenerateInOrder sample.mergeTwo (kubernetes.ResPod sample.webPod) []
               (reverse (map_to_list sample.ecsTwo)))) as H2.
  { apply (GenerateInOrder_run _ _ _ sample.ecsTwo); [done|]. apply reverse_Permutation. }
  split; [exact H1|]. split; [exact H2|].
  exact (generate_deterministic _ _ _ _ _ H1 H2).
Defined.

(** * Further properties of the generator *)

(** ** Binds, calls and returns *)


Lemma result_bind {A B} (c : Eff A) (f : A -> Eff B) :
  result (c ≫= f)
  = match result c with
    | Done a => result (f a)
    | Panic => Panic
    end.
Proof. destruct c as [tr [a|]]; simpl; [|done]. by destruct (f a). Qed.

Lemma bind_Done_inv {A B} (c : Eff A) (f : A -> Eff B) (tr : list Call) (r : B) :
  c ≫= f = (tr, Done r) ->
  exists t1 a t2, c = (t1, Done a) /\ f a = (t2, Done r) /\ tr = (t1 ++ t2)%list.
Proof.
  destruct c as [t1 [a|]]; simpl; [|done].
  destruct (f a) as [t2 r'] eqn:Hf. intros [= <- ->]. by exists t1, a, t2.
Qed.

Lemma put_calls (out : M) (key : string) (v : value) : calls (put out key v) = [].
Proof. unfold put. by destruct (Put out key v) as [[[? ?] ?]|]. Qed.

Lemma put_returns (out : M) (key : string) (v : value) (tr : list Call) (r : M) :
  put out key v = (tr, Done r) ->
  tr = [] /\ exists g g', out = Some g /\ r = Some g'
                          /\ agreeOutside [key; headKey key] g g'.
Proof.
  unfold put. destruct out as [g|]; [|by rewrite Put_nil].
  destruct (Put (Some g) key v) as [[[g' old] e]|] eqn:HPut; [|done].
  intros [= <- <-]. split; [done|]. exists g, g'. split_and!; [done..|].
  intros t Ht. eapply Put_frame; [exact HPut| |]; intros ->; apply Ht;
    rewrite !elem_of_cons; tauto.
Qed.

Lemma agreeOutside_weaken (ks ks' : list string) (g g' : gmap string value) :
  agreeOutside ks g g' -> (forall t, t ∈ ks -> t ∈ ks') -> agreeOutside ks' g g'.
Proof. intros Hagree Hsub t Ht. apply Hagree. intros Hin. by apply Ht, Hsub. Qed.

Lemma agreeOutside_trans (ks : list string) (g1 g2 g3 : gmap string value) :
  agreeOutside ks g1 g2 -> agreeOutside ks g2 g3 -> agreeOutside ks g1 g3.
Proof. intros H12 H23 t Ht. by rewrite (H23 t Ht), (H12 t Ht). Qed.

(** ** What a step returns, whatever the base document *)

Lemma deploymentHop_returns (p : pod) (out : M) (tr : list Call) (r : M) :
  deploymentHop p out = (tr, Done r) ->
  match out with
  | Some g => exists g', r = Some g' /\ agreeOutside ["deployment.name"; "deployment"] g g'
  | None => r = None
  end.
Proof.
  assert (forall t r', mret out = ((t, Done r') : Eff M) ->
            match out with
            | Some g => exists g', r' = Some g'
                          /\ agreeOutside ["deployment.name"; "deployment"] g g'
            | None => r' = None
            end) as Hret.
  { intros t r' [= _ <-]. destruct out as [g|]; [|done].
    exists g. split; [done|apply agreeOutside_refl]. }
  unfold deploymentHop.
  destruct (Deployment _); [|apply Hret].
  destruct (replicaset p) as [gen|]; [|apply Hret].
  destruct (GetValue out "replicaset.name") as [[|n| |] e]; try apply Hret.
  intros (t1 & meta & t2 & _ & Hrest & _)%bind_Done_inv.
  destruct (GetValue meta "deployment.name") as [d e'].
  destruct (negb (isEmptyString d)); [|by apply (Hret t2)].
  apply put_returns in Hrest as (_ & g & g' & -> & -> & Hframe).
  exists g'. split; [done|]. exact Hframe.
Qed.

Lemma cronJobHop_returns (p : pod) (out : M) (tr : list Call) (r : M) :
  cronJobHop p out = (tr, Done r) ->
  match out with
  | Some g => exists g', r = Some g' /\ agreeOutside ["cronjob.name"; "cronjob"] g g'
  | None => r = None
  end.
Proof.
  assert (forall t r', mret out = ((t, Done r') : Eff M) ->
            match out with
            | Some g => exists g', r' = Some g'
                          /\ agreeOutside ["cronjob.name"; "cronjob"] g g'
            | None => r' = None
            end) as Hret.
  { intros t r' [= _ <-]. destruct out as [g|]; [|done].
    exists g. split; [done|apply agreeOutside_refl]. }
  unfold cronJobHop.
  destruct (CronJob _); [|apply Hret].
  destruct (job p) as [gen|]; [|apply Hret].
  destruct (GetValue out "job.name") as [[|n| |] e]; try apply Hret.
  intros (t1 & meta & t2 & _ & Hrest & _)%bind_Done_inv.
  destruct (GetValue meta "cronjob.name") as [d e'].
  destruct (negb (isEmptyString d)); [|by apply (Hret t2)].
  apply put_returns in Hrest as (_ & g & g' & -> & -> & Hframe).
  exists g'. split; [done|]. exact Hframe.
Qed.

Lemma nodeHop_returns (p : pod) (po : kubernetes.Pod) (out : M) (tr : list Call) (r : M) :
  nodeHop p po out = (tr, Done r) ->
  exists g g', out = Some g /\ r = Some g' /\ agreeOutside ["node"; "node.name"] g g'.
Proof.
  assert (forall key v t r', put out key v = (t, Done r') ->
            (forall k, k ∈ [key; headKey key] -> k ∈ ["node"; "node.name"]) ->
            exists g g', out = Some g /\ r' = Some g'
                         /\ agreeOutside ["node"; "node.name"] g g') as Hput.
  { intros key v t r' (_ & g & g' & -> & -> & Hframe)%put_returns Hsub.
    exists g, g'. split_and!; [done..|]. by eapply agreeOutside_weaken. }
  assert (forall k, k ∈ ["node.name"; headKey "node.name"] -> k ∈ ["node"; "node.name"]) as Hdot.
  { intros k. change (headKey "node.name") with "node". rewrite !elem_of_cons. tauto. }
  assert (forall k, k ∈ ["node"; headKey "node"] -> k ∈ ["node"; "node.name"]) as Hplain.
  { intros k. change (headKey "node") with "node". rewrite !elem_of_cons. tauto. }
  unfold nodeHop. destruct (node p) as [gen|].
  - intros (t1 & meta & t2 & _ & Hrest & _)%bind_Done_inv.
    destruct meta; eapply Hput; eauto.
  - intros Hrest. eapply Hput; eauto.
Qed.

Lemma podIPStep_returns (po : kubernetes.Pod) (out : M) (tr : list Call) (r : M) :
  podIPStep po out = (tr, Done r) ->
  match out with
  | Some g => exists g', r = Some g' /\ agreeOutside ["pod.ip"; "pod"] g g'
  | None => r = None
  end.
Proof.
  unfold podIPStep. destruct (negb _).
  - intros (_ & g & g' & -> & -> & Hframe)%put_returns. exists g'. split; [done|].
    exact Hframe.
  - intros [= _ <-]. destruct out as [g|]; [|done].
    exists g. split; [done|apply agreeOutside_refl].
Qed.

(** X1.  Whenever [GenerateK8s] returns for a pod, the projector's base
    document was not nil, the result is not nil, and every top-level
    entry of the base document other than the four sections the steps
    write ([deployment], [cronjob], [node], [pod]) and their dotted keys
    is in the result as it was. *)
Theorem GenerateK8s_keeps_other_entries (p : pod) (po : kubernetes.Pod)
    (opts : list FieldOptions) (tr : list Call) (r : M) :
  GenerateK8s p (kubernetes.ResPod po) opts = (tr, Done r) ->
  exists g out,
    baseDoc p po opts = Some g /\ r = Some out /\ agreeOutside touchedKeys g out.
Proof.
  unfold GenerateK8s. fold (baseDoc p po opts).
  intros (t1 & r1 & t1' & H1 & Hrest & _)%bind_Done_inv.
  apply bind_Done_inv in Hrest as (t2 & r2 & t2' & H2 & Hrest & _).
  apply bind_Done_inv in Hrest as (t3 & r3 & t3' & H3 & Hrest & _).
  apply bind_Done_inv in Hrest as (t4 & r4 & t4' & H4 & [= _ ->] & _).
  apply nodeHop_returns in H3 as (g2 & g3 & -> & -> & F3).
  apply podIPStep_returns in H4 as (g4 & -> & F4).
  apply deploymentHop_returns in H1.
  destruct (baseDoc p po opts) as [g|].
  2:{ subst r1. by apply cronJobHop_returns in H2. }
  destruct H1 as (g1 & -> & F1).
  apply cronJobHop_returns in H2 as (g2' & [= <-] & F2).
  exists g, g4. split_and!; [done..|].
  eapply agreeOutside_trans; [|eapply agreeOutside_weaken; [exact F4|touched_key]].
  eapply agreeOutside_trans; [|eapply agreeOutside_weaken; [exact F3|touched_key]].
  eapply agreeOutside_trans; [|eapply agreeOutside_weaken; [exact F2|touched_key]].
  eapply agreeOutside_weaken; [exact F1|touched_key].
Qed.

(** ** Panics *)

Lemma deploymentHop_nil (p : pod) : deploymentHop p None = mret None.
Proof.
  unfold deploymentHop. rewrite GetValue_nil.
  destruct (Deployment _); [|done]. by destruct (replicaset p).
Qed.

Lemma cronJobHop_nil (p : pod) : cronJobHop p None = mret None.
Proof.
  unfold cronJobHop. rewrite GetValue_nil.
  destruct (CronJob _); [|done]. by destruct (job p).
Qed.

Lemma nodeHop_nil (p : pod) (po : kubernetes.Pod) :
  nodeHop p po None = (nodeCalls p po, Panic).
Proof.
  assert (forall key v, put None key v = ([], Panic)) as Hput.
  { intros key v. unfold put. by rewrite Put_nil. }
  unfold nodeHop, nodeCalls. destruct (node p) as [gen|]; [|apply Hput].
  unfold callGenerateFromName, mbind, Eff_bind.
  destruct (peerGenerateFromName gen _ _); by rewrite Hput.
Qed.

(** X2.  When the projector answers a pod with the nil document,
    [GenerateK8s] panics: both owner hops pass the nil document on, the
    node peer, if there is one, is still called, and the node step
    then writes into the nil map. *)
Theorem GenerateK8s_panics_on_nil_base (p : pod) (po : kubernetes.Pod)
    (opts : list FieldOptions) :
  baseDoc p po opts = None ->
  GenerateK8s p (kubernetes.ResPod po) opts = (nodeCalls p po, Panic).
Proof.
  intros Hbase. unfold GenerateK8s. fold (baseDoc p po opts). rewrite Hbase.
  rewrite deploymentHop_nil. simpl. rewrite cronJobHop_nil. simpl.
  by rewrite nodeHop_nil.
Qed.

Lemma cronJobHop_panics (p : pod) (g : gmap string value) :
  cronJobHopCalls p (Some g) = true -> replicaset p = None ->
  cronJobHop p (Some g) = ([], Panic).
Proof.
  unfold cronJobHopCalls, cronJobHop. intros Hcalls ->.
  destruct (CronJob _); [|done]. destruct (job p); [|done].
  destruct (GetValue (Some g) "job.name") as [[|n| |] e]; done.
Qed.

(** X3.  For a pod whose base document is ready, [GenerateK8s] panics
    exactly when the CronJob hop reaches its peer call (switch on, Job
    peer there, [job.name] a string) while [p.replicaset] is nil; it
    has made no peer call by then.  In every other case it returns a
    document. *)
Theorem GenerateK8s_panics_iff (p : pod) (po : kubernetes.Pod) (opts : list FieldOptions) :
  readyBase (baseDoc p po opts) = true ->
  (cronJobHopCalls p (baseDoc p po opts) = true /\ replicaset p = None ->
   GenerateK8s p (kubernetes.ResPod po) opts = ([], Panic))
  /\ (~ (cronJobHopCalls p (baseDoc p po opts) = true /\ replicaset p = None) ->
      exists tr out, GenerateK8s p (kubernetes.ResPod po) opts = (tr, Done (Some out))).
Proof.
  intros Hready.
  destruct (baseDoc p po opts) as [g|] eqn:Hbase; [|discriminate]. split.
  - intros [Hcalls Hrs].
    destruct (readyBase_sections g Hready) as (Rd & _).
    destruct (deploymentHop_run p g Rd) as (g1 & H1 & F1 & Hskip & _).
    assert (g1 = g) as ->.
    { apply Hskip. unfold deploymentHopCalls. rewrite Hrs. simpl. by rewrite andb_false_r. }
    unfold GenerateK8s. fold (baseDoc p po opts). rewrite Hbase, H1. simpl.
    rewrite (cronJobHop_panics p g Hcalls Hrs). simpl.
    unfold deploymentCalls. rewrite Hrs. simpl. by rewrite andb_false_r.
  - intros Hsafe.
    destruct (GenerateK8s_run p po opts g Hbase Hready) as (g1 & g2 & g3 & g4 & HG & _).
    + intros Hcalls. destruct (replicaset p); [done|]. by destruct Hsafe.
    + eauto.
Qed.

(** ** The peer calls *)






(** ** Writing into a section that is there *)

Lemma Put_into_section (g sub : gmap string value) (key : string) (v : value) :
  g !! key = None ->
  g !! headKey key = Some (VMap (Some sub)) ->
  0 <= IndexRune key dot ->
  IndexRune (restKey key) dot < 0 ->
  Put (Some g) key v
  = Done (<[headKey key := VMap (Some (<[restKey key := v]> sub))]> g,
          default VNil (sub !! restKey key), None).
Proof.
  intros Hkey Hhead Hidx Hrest. rewrite Put_unfold, Hkey, Hhead.
  destruct (Z.ltb_spec (IndexRune key dot) 0); [lia|]. simpl.
  by rewrite (Put_plain _ _ _ Hrest).
Qed.

Lemma Put_blocked (g : gmap string value) (key : string) (v w : value) :
  g !! key = None ->
  g !! headKey key = Some w ->
  0 <= IndexRune key dot ->
  isLeaf w = true ->
  Put (Some g) key v = Done (g, VNil, Some ErrNotMap).
Proof.
  intros Hkey Hhead Hidx Hleaf. rewrite Put_unfold, Hkey, Hhead.
  destruct (Z.ltb_spec (IndexRune key dot) 0); [lia|]. by destruct w.
Qed.

Lemma GetValue_blocked (g : gmap string value) (key : string) (w : value) :
  g !! key = None ->
  g !! headKey key = Some w ->
  0 <= IndexRune key dot ->
  isLeaf w = true ->
  GetValue (Some g) key = (VNil, Some ErrNotMap).
Proof.
  intros Hkey Hhead Hidx Hleaf. rewrite GetValue_unfold. simpl. rewrite Hkey, Hhead.
  destruct (Z.ltb_spec (IndexRune key dot) 0); [lia|]. by destruct w.
Qed.

Lemma nodeHop_fallback (p : pod) (po : kubernetes.Pod) (out : M) :
  nodeAnswer p po = None ->
  nodeHop p po out
  = (nodeCalls p po,
     result (put out "node.name" (VStr (kubernetes.NodeName (kubernetes.Spec po))))).
Proof.
  unfold nodeAnswer, nodeHop, nodeCalls. intros Hanswer.
  assert (forall c : Eff M, calls c = [] -> c = ([], result c)) as Hsplit.
  { intros [tr r]. simpl. by intros ->. }
  destruct (node p) as [gen|]; simpl.
  - rewrite Hanswer. simpl.
    destruct (put out "node.name" _) as [tr r] eqn:Hput.
    pose proof (put_calls out "node.name"
                  (VStr (kubernetes.NodeName (kubernetes.Spec po)))) as Hc.
    rewrite Hput in Hc. simpl in Hc. by subst tr.
  - apply Hsplit, put_calls.
Qed.

Lemma GenerateK8s_steps (p : pod) (po : kubernetes.Pod) (opts : list FieldOptions)
    (t1 t2 t3 t4 : list Call) (r1 r2 r3 r4 : M) :
  deploymentHop p (baseDoc p po opts) = (t1, Done r1) ->
  cronJobHop p r1 = (t2, Done r2) ->
  nodeHop p po r2 = (t3, Done r3) ->
  podIPStep po r3 = (t4, Done r4) ->
  GenerateK8s p (kubernetes.ResPod po) opts = ((t1 ++ t2 ++ t3 ++ t4)%list, Done r4).
Proof.
  intros H1 H2 H3 H4. unfold GenerateK8s. fold (baseDoc p po opts).
  rewrite H1. simpl. rewrite H2. simpl. rewrite H3. simpl. rewrite H4. simpl.
  by rewrite !app_nil_r, !app_assoc.
Qed.

(** The two owner hops on a base document whose [deployment] and
    [cronjob] sections are ready. *)
Lemma owner_hops_run (p : pod) (g : gmap string value) :
  sectionReady g "deployment" = true ->
  sectionReady g "cronjob" = true ->
  (cronJobHopCalls p (Some g) = true -> isSome (replicaset p) = true) ->
  exists g1 g2,
    deploymentHop p (Some g) = (deploymentCalls p (Some g), Done (Some g1))
    /\ cronJobHop p (Some g1) = (cronJobCalls p (Some g), Done (Some g2))
    /\ agreeOutside ["deployment.name"; "deployment"] g g1
    /\ agreeOutside ["cronjob.name"; "cronjob"] g1 g2.
Proof.
  intros Rd Rc Hcron.
  destruct (deploymentHop_run p g Rd) as (g1 & H1 & F1 & _).
  assert (sectionReady g1 "cronjob" = true) as Rc1.
  { rewrite (sectionReady_outside _ _ _ _ F1); [done|other_key]. }
  assert (GetValue (Some g1) "job.name" = GetValue (Some g) "job.name") as Hjob.
  { apply (GetValue_outside _ _ _ _ F1); other_key. }
  destruct (cronJobHop_run p g1 Rc1) as (g2 & H2 & F2 & _).
  { unfold cronJobHopCalls in *. by rewrite Hjob. }
  exists g1, g2. split_and!; [done| |done|done].
  rewrite H2. unfold cronJobCalls. by rewrite Hjob.
Qed.

(** X8.  What the Deployment hop writes is the peer's [deployment.name]
    as it is, of whatever type: for a pod whose base document is ready,
    with the switch on, a ReplicaSet peer and a string under
    [replicaset.name], the result holds under [deployment.name] the
    value [d] the peer's answer holds there (nil when the answer has
    none), unless [d] is the empty string; then [deployment.name] is
    what it is in the base document. *)
Theorem deployment_name_copied_unless_empty (p : pod) (po : kubernetes.Pod)
    (opts : list FieldOptions) (gen : MetaGen) (n : string) :
  readyBase (baseDoc p po opts) = true ->
  (cronJobHopCalls p (baseDoc p po opts) = true -> isSome (replicaset p) = true) ->
  Deployment (addResourceMetadata p) = true ->
  replicaset p = Some gen ->
  fst (GetValue (baseDoc p po opts) "replicaset.name") = VStr n ->
  exists tr out,
    GenerateK8s p (kubernetes.ResPod po) opts = (tr, Done (Some out))
    /\ GetValue (Some out) "deployment.name"
       = if isEmptyString (fst (GetValue (peerGenerateFromName gen n []) "deployment.name"))
         then GetValue (baseDoc p po opts) "deployment.name"
         else (fst (GetValue (peerGenerateFromName gen n []) "deployment.name"), None).
Proof.
  intros Hready Hcron HD Hrs Hname.
  destruct (baseDoc p po opts) as [g|] eqn:Hbase; [|discriminate].
  destruct (GenerateK8s_run p po opts g Hbase Hready Hcron) as
    (g1 & g2 & g3 & g4 & HG & H1 & H2 & H3 & H4 & F1 & F2 & F3 & F4 & _).
  destruct (readyBase_sections g Hready) as (Rd & _).
  destruct (deploymentHop_run p g Rd) as (g1' & H1' & _ & _ & Hval).
  rewrite H1 in H1'. injection H1' as <-.
  eexists _, g4. split; [exact HG|].
  rewrite (GetValue_outside _ _ _ _ F4), (GetValue_outside _ _ _ _ F3),
    (GetValue_outside _ _ _ _ F2); [|other_key..].
  specialize (Hval gen n HD Hrs Hname). simpl in Hval.
  destruct (isEmptyString _); [by subst g1|done].
Qed.

(** ** The document [Generate] returns *)

Lemma dom_deepUpdateMap (m d : gmap string value) :
  dom (deepUpdateMap m (Some d)) = dom m ∪ dom d.
Proof.
  apply set_eq. intros k.
  rewrite elem_of_union, !elem_of_dom, deepUpdateMap_lookup.
  destruct (d !! k) as [v|].
  - split; [right|]; eauto.
  - split; [by left|]. by intros [H|[x Hx]].
Qed.

(** X9.  Whenever [Generate] returns, the document is not nil and its
    top-level keys are ["kubernetes"] and the top-level keys of
    [GenerateECS], no more and no less: the merge drops no key and adds
    none of its own. *)
Theorem Generate_top_level_keys (p : pod) (obj : kubernetes.Resource)
    (opts : list FieldOptions) (tr : list Call) (r : M) :
  Generate p obj opts = (tr, Done r) ->
  exists doc,
    r = Some doc
    /\ dom doc = {[ "kubernetes" ]} ∪ match GenerateECS p obj with
                                      | Some e => dom e
                                      | None => ∅
                                      end.
Proof.
  unfold Generate. intros (t1 & k8s & t2 & _ & [= _ <-] & _)%bind_Done_inv.
  eexists. split; [done|]. unfold DeepUpdate.
  destruct (GenerateECS p obj) as [e|].
  - by rewrite dom_deepUpdateMap, dom_singleton_L.
  - unfold deepUpdateMap. rewrite dom_singleton_L. set_solver.
Qed.

(** X10.  ECS fields under ["kubernetes"] are merged into the native
    document, they do not replace it: when [GenerateK8s] returns the
    document [native] and [GenerateECS] holds a map [e] under
    ["kubernetes"], [Generate] returns a document whose ["kubernetes"]
    entry is a map in which every key [e] does not have is as in
    [native], and every key [e] has with a value that is no map has
    that value. *)
Theorem Generate_keeps_native_fields (p : pod) (obj : kubernetes.Resource)
    (opts : list FieldOptions) (tr : list Call) (native : gmap string value) (e : M) :
  GenerateK8s p obj opts = (tr, Done (Some native)) ->
  lookupM (GenerateECS p obj) "kubernetes" = Some (VMap e) ->
  exists doc merged,
    Generate p obj opts = (tr, Done (Some doc))
    /\ doc !! "kubernetes" = Some (VMap (Some merged))
    /\ (forall k, lookupM e k = None -> merged !! k = native !! k)
    /\ (forall k v, lookupM e k = Some v -> isLeaf v = true -> merged !! k = Some v).
Proof.
  intros HK Hecs. unfold Generate. rewrite HK. simpl. rewrite app_nil_r.
  destruct (GenerateECS p obj) as [ecs|]; [|done]. simpl in Hecs.
  exists (DeepUpdate {[ "kubernetes" := VMap (Some native) ]} (Some ecs)),
    (deepUpdateMap native e).
  split; [done|]. split.
  { unfold DeepUpdate. rewrite deepUpdateMap_lookup, Hecs, lookup_singleton_eq.
    by rewrite deepUpdateEntry_map. }
  destruct e as [e|]; unfold lookupM.
  - split.
    + intros k Hk. by rewrite deepUpdateMap_lookup, Hk.
    + intros k v Hk Hleaf. by rewrite deepUpdateMap_lookup, Hk, deepUpdateEntry_leaf.
  - split; [done|]. by intros k v [=].
Qed.

Lemma deepUpdateEntry_self (v : value) : deepUpdateEntry (Some v) v = v.
Proof.
  induction v as [|s| |d IH|n] using value_map_ind; try reflexivity.
  rewrite deepUpdateEntry_map. unfold deepUpdateValue. do 2 f_equal.
  apply map_eq. intros k. rewrite deepUpdateMap_lookup.
  destruct (d !! k) as [w|] eqn:Hk; [|done]. by rewrite (IH k w Hk).
Qed.

Lemma deepUpdateEntry_twice (v : value) :
  forall old, deepUpdateEntry (Some (deepUpdateEntry old v)) v = deepUpdateEntry old v.
Proof.
  induction v as [|s| |d IH|n] using value_map_ind; intros old; try reflexivity.
  - by destruct old as [[| |[sub|]|]|].
  - destruct old as [[| |[sub|]|]|];
      try (change (deepUpdateEntry _ (VMap (Some d))) with (VMap (Some d)) at 2;
           change (deepUpdateEntry _ (VMap (Some d))) with (VMap (Some d)) at 2;
           apply deepUpdateEntry_self).
    rewrite (deepUpdateEntry_map (Some (VMap (Some sub)))). unfold deepUpdateValue.
    rewrite deepUpdateEntry_map. unfold deepUpdateValue. do 2 f_equal.
    apply map_eq. intros k. rewrite !deepUpdateMap_lookup.
    destruct (d !! k) as [w|] eqn:Hk; [|done]. by rewrite (IH k w Hk).
Qed.

Lemma DeepUpdate_twice (m : gmap string value) (d : M) :
  DeepUpdate (DeepUpdate m d) d = DeepUpdate m d.
Proof.
  destruct d as [g|]; [|done]. unfold DeepUpdate.
  apply map_eq. intros k. rewrite !deepUpdateMap_lookup.
  destruct (g !! k); [|done]. by rewrite deepUpdateEntry_twice.
Qed.

(** X11.  The result of [Generate] already holds the ECS fields: to
    deep-update it with [GenerateECS] once more changes nothing. *)
Theorem Generate_absorbs_ecs (p : pod) (obj : kubernetes.Resource)
    (opts : list FieldOptions) (tr : list Call) (doc : gmap string value) :
  Generate p obj opts = (tr, Done (Some doc)) ->
  DeepUpdate doc (GenerateECS p obj) = doc.
Proof.
  unfold Generate. intros (t1 & k8s & t2 & _ & [= _ <-] & _)%bind_Done_inv.
  apply DeepUpdate_twice.
Qed.

(** X12.  [Generate] on a stored pod wraps what [GenerateFromName]
    returns for its name: with the pod under [name] in the store and no
    ["kubernetes"] entry in the ECS fields, [GenerateFromName] returns
    the document that [Generate] holds under ["kubernetes"], after the
    same peer calls; when one panics, so does the other. *)
Theorem Generate_wraps_GenerateFromName (p : pod) (name : string)
    (opts : list FieldOptions) (st : Store) (po : kubernetes.Pod) (e : option error) :
  store p = Some st ->
  GetByKey st name = (Some (kubernetes.ResPod po), true, e) ->
  lookupM (GenerateECS p (kubernetes.ResPod po)) "kubernetes" = None ->
  match GenerateFromName p name opts with
  | (tr, Done k8s) =>
      exists doc, Generate p (kubernetes.ResPod po) opts = (tr, Done (Some doc))
                  /\ doc !! "kubernetes" = Some (VMap k8s)
  | (tr, Panic) => Generate p (kubernetes.ResPod po) opts = (tr, Panic)
  end.
Proof.
  intros Hst Hget Hecs. unfold GenerateFromName, Generate. rewrite Hst, Hget.
  destruct (GenerateK8s p (kubernetes.ResPod po) opts) as [tr [k8s|]]; simpl; [|done].
  rewrite app_nil_r. eexists. split; [done|]. unfold DeepUpdate.
  destruct (GenerateECS p (kubernetes.ResPod po)) as [ecs|].
  - rewrite deepUpdateMap_lookup. simpl in Hecs. by rewrite Hecs, lookup_singleton_eq.
  - unfold deepUpdateMap. by rewrite lookup_singleton_eq.
Qed.

(** ** Generators as the constructor builds them *)

(** X13.  A generator built by [NewPodMetadataGenerator] without a
    ReplicaSet peer and without a Job peer resolves no owner, whatever
    the two switches say: on a pod with a ready base document
    [GenerateK8s] returns after the node call alone, and
    [deployment.name] and [cronjob.name] are in the result what they
    are in the base document. *)
Theorem generator_without_owner_peers (p : pod)
    (newResource : option Config -> option Client -> option MetaGen -> Resource)
    (cfg : option Config) (pods : option Store) (client : option Client)
    (nodeGen namespaceGen : option MetaGen) (conf : AddResourceMetadataConfig)
    (po : kubernetes.Pod) (opts : list FieldOptions) :
  p = NewPodMetadataGenerator newResource cfg pods client nodeGen namespaceGen None None conf ->
  readyBase (baseDoc p po opts) = true ->
  exists out,
    GenerateK8s p (kubernetes.ResPod po) opts = (nodeCalls p po, Done (Some out))
    /\ GetValue (Some out) "deployment.name" = GetValue (baseDoc p po opts) "deployment.name"
    /\ GetValue (Some out) "cronjob.name" = GetValue (baseDoc p po opts) "cronjob.name".
Proof.
  intros Hp Hready.
  assert (replicaset p = None) as Hrs by (by subst p).
  assert (job p = None) as Hjob by (by subst p).
  destruct (baseDoc p po opts) as [g|] eqn:Hbase; [|discriminate].
  assert (cronJobHopCalls p (Some g) = false) as Hsilent.
  { unfold cronJobHopCalls. rewrite Hjob. simpl. by rewrite andb_false_r. }
  destruct (GenerateK8s_run p po opts g Hbase Hready) as
    (g1 & g2 & g3 & g4 & HG & H1 & H2 & H3 & H4 & F1 & F2 & F3 & F4 & _).
  { by rewrite Hsilent. }
  rewrite deploymentHop_without_peer in H1 by done. injection H1 as _ <-.
  rewrite cronJobHop_without_peer in H2 by done. injection H2 as _ <-.
  exists g4. split_and!.
  - rewrite HG. unfold deploymentCalls, cronJobCalls. rewrite Hrs, Hjob. simpl.
    by rewrite !andb_false_r.
  - rewrite (GetValue_outside _ _ _ _ F4), (GetValue_outside _ _ _ _ F3);
      [done|other_key..].
  - rewrite (GetValue_outside _ _ _ _ F4), (GetValue_outside _ _ _ _ F3);
      [done|other_key..].
Qed.

(** ** The steps behind a result *)

(** Whenever [GenerateK8s] returns for a pod, each of the four steps
    returned, on a document that was not nil. *)
Lemma GenerateK8s_returns_steps (p : pod) (po : kubernetes.Pod) (opts : list FieldOptions)
    (tr : list Call) (r : M) :
  GenerateK8s p (kubernetes.ResPod po) opts = (tr, Done r) ->
  exists g g1 g2 g3 g4 t3 t4,
    baseDoc p po opts = Some g /\ r = Some g4
    /\ agreeOutside ["deployment.name"; "deployment"] g g1
    /\ agreeOutside ["cronjob.name"; "cronjob"] g1 g2
    /\ nodeHop p po (Some g2) = (t3, Done (Some g3))
    /\ agreeOutside ["node"; "node.name"] g2 g3
    /\ podIPStep po (Some g3) = (t4, Done (Some g4))
    /\ agreeOutside ["pod.ip"; "pod"] g3 g4.
Proof.
  unfold GenerateK8s. fold (baseDoc p po opts).
  intros (t1 & r1 & t1' & H1 & Hrest & _)%bind_Done_inv.
  apply bind_Done_inv in Hrest as (t2 & r2 & t2' & H2 & Hrest & _).
  apply bind_Done_inv in Hrest as (t3 & r3 & t3' & H3 & Hrest & _).
  apply bind_Done_inv in Hrest as (t4 & r4 & t4' & H4 & [= _ ->] & _).
  pose proof H3 as (g2 & g3 & -> & -> & F3)%nodeHop_returns.
  pose proof H4 as (g4 & -> & F4)%podIPStep_returns.
  apply deploymentHop_returns in H1.
  destruct (baseDoc p po opts) as [g|].
  2:{ subst r1. by apply cronJobHop_returns in H2. }
  destruct H1 as (g1 & -> & F1).
  apply cronJobHop_returns in H2 as (g2' & [= <-] & F2).
  by exists g, g1, g2, g3, g4, t3, t4.
Qed.

(** X5.  Whenever [GenerateK8s] returns for a pod with a non-empty IP
    whose base document has a [pod] section and no flat [pod.ip] key,
    the [pod] entry of the result is that section with [ip] set: the
    fields the projector put under [pod] stay. *)
Theorem pod_ip_joins_pod_section (p : pod) (po : kubernetes.Pod)
    (opts : list FieldOptions) (sub : gmap string value) (tr : list Call)
    (out : gmap string value) :
  GenerateK8s p (kubernetes.ResPod po) opts = (tr, Done (Some out)) ->
  lookupM (baseDoc p po opts) "pod" = Some (VMap (Some sub)) ->
  lookupM (baseDoc p po opts) "pod.ip" = None ->
  kubernetes.PodIP (kubernetes.Status po) <> "" ->
  out !! "pod"
  = Some (VMap (Some (<["ip" := VStr (kubernetes.PodIP (kubernetes.Status po))]> sub))).
Proof.
  intros (g & g1 & g2 & g3 & g4 & t3 & t4 & Hbase & [= ->] & F1 & F2 & _ & F3 & H4 & _)
    %GenerateK8s_returns_steps Hpod Hflat Hip.
  rewrite Hbase in Hpod, Hflat. simpl in Hpod, Hflat.
  assert (g3 !! "pod" = Some (VMap (Some sub))) as Hpod3.
  { rewrite (F3 "pod"), (F2 "pod"), (F1 "pod"); [done|other_key..]. }
  assert (g3 !! "pod.ip" = None) as Hflat3.
  { rewrite (F3 "pod.ip"), (F2 "pod.ip"), (F1 "pod.ip"); [done|other_key..]. }
  unfold podIPStep in H4.
  destruct (String.eqb_spec (kubernetes.PodIP (kubernetes.Status po)) ""); [done|].
  simpl in H4. unfold put in H4.
  rewrite (Put_into_section g3 sub "pod.ip") in H4; [|done|done|section_key|section_key].
  injection H4 as _ <-. by rewrite lookup_insert_eq.
Qed.

(** X6.  The fallback of the node step does not replace a [node]
    section the base document came with: whenever [GenerateK8s]
    returns for a pod whose node peer is missing or answers nil and
    whose base document has a [node] section and no flat [node.name]
    key, the [node] entry of the result is that section with [name]
    set to the pod's node name. *)
Theorem node_fallback_joins_node_section (p : pod) (po : kubernetes.Pod)
    (opts : list FieldOptions) (sub : gmap string value) (tr : list Call)
    (out : gmap string value) :
  GenerateK8s p (kubernetes.ResPod po) opts = (tr, Done (Some out)) ->
  nodeAnswer p po = None ->
  lookupM (baseDoc p po opts) "node" = Some (VMap (Some sub)) ->
  lookupM (baseDoc p po opts) "node.name" = None ->
  out !! "node"
  = Some (VMap (Some (<["name" := VStr (kubernetes.NodeName (kubernetes.Spec po))]> sub))).
Proof.
  intros (g & g1 & g2 & g3 & g4 & t3 & t4 & Hbase & [= ->] & F1 & F2 & H3 & _ & _ & F4)
    %GenerateK8s_returns_steps Hanswer Hnode Hflat.
  rewrite Hbase in Hnode, Hflat. simpl in Hnode, Hflat.
  assert (g2 !! "node" = Some (VMap (Some sub))) as Hnode2.
  { rewrite (F2 "node"), (F1 "node"); [done|other_key..]. }
  assert (g2 !! "node.name" = None) as Hflat2.
  { rewrite (F2 "node.name"), (F1 "node.name"); [done|other_key..]. }
  rewrite (nodeHop_fallback p po _ Hanswer) in H3. unfold put in H3.
  rewrite (Put_into_section g2 sub "node.name") in H3; [|done|done|section_key|section_key].
  injection H3 as _ <-.
  rewrite (F4 "node"); [|other_key]. by rewrite lookup_insert_eq.
Qed.

(** X7.  A [node] entry of the base document that is no map blocks the
    fallback without a trace: whenever [GenerateK8s] returns for a pod
    whose node peer is missing or answers nil and whose base document
    has such a [node] entry and no flat [node.name] key, the error of
    [Put] was dropped, the [node] entry of the result is as it was, and
    [node.name] cannot be read from the result. *)
Theorem node_fallback_blocked_by_leaf (p : pod) (po : kubernetes.Pod)
    (opts : list FieldOptions) (w : value) (tr : list Call) (out : gmap string value) :
  GenerateK8s p (kubernetes.ResPod po) opts = (tr, Done (Some out)) ->
  nodeAnswer p po = None ->
  lookupM (baseDoc p po opts) "node" = Some w ->
  isLeaf w = true ->
  lookupM (baseDoc p po opts) "node.name" = None ->
  out !! "node" = Some w
  /\ GetValue (Some out) "node.name" = (VNil, Some ErrNotMap).
Proof.
  intros (g & g1 & g2 & g3 & g4 & t3 & t4 & Hbase & [= ->] & F1 & F2 & H3 & _ & _ & F4)
    %GenerateK8s_returns_steps Hanswer Hnode Hleaf Hflat.
  rewrite Hbase in Hnode, Hflat. simpl in Hnode, Hflat.
  assert (g2 !! "node" = Some w) as Hnode2.
  { rewrite (F2 "node"), (F1 "node"); [done|other_key..]. }
  assert (g2 !! "node.name" = None) as Hflat2.
  { rewrite (F2 "node.name"), (F1 "node.name"); [done|other_key..]. }
  rewrite (nodeHop_fallback p po _ Hanswer) in H3. unfold put in H3.
  rewrite (Put_blocked g2 "node.name" _ w) in H3; [|done|done|section_key|done].
  injection H3 as _ <-. split.
  - rewrite (F4 "node"); [done|other_key].
  - rewrite (GetValue_outside _ _ _ _ F4); [|other_key..].
    by apply (GetValue_blocked g2 "node.name" w); [done|done|section_key|done].
Qed.

(** ** The node hop *)

Lemma Put_flat (g : gmap string value) (key : string) (v old : value) :
  g !! key = Some old -> Put (Some g) key v = Done (<[key := v]> g, old, None).
Proof. intros Hkey. by rewrite Put_unfold, Hkey. Qed.

Lemma nodeHop_answered (p : pod) (po : kubernetes.Pod) (out meta : M) :
  nodeAnswer p po = meta -> isSome meta = true ->
  nodeHop p po out = (nodeCalls p po, result (put out "node" (index meta "node"))).
Proof.
  unfold nodeAnswer, nodeHop, nodeCalls. intros Hanswer Hsome.
  destruct (node p) as [gen|]; [|by subst meta]. simpl. rewrite Hanswer.
  destruct meta as [m|]; [|done]. simpl.
  destruct (put out "node" _) as [tr r] eqn:Hput.
  pose proof (put_calls out "node" (index (Some m) "node")) as Hc.
  rewrite Hput in Hc. simpl in Hc. by subst tr.
Qed.

(** After the owner hops and a node step that returned, the pod IP step
    leaves the node entries alone. *)
Lemma GenerateK8s_after_node (p : pod) (po : kubernetes.Pod) (opts : list FieldOptions)
    (g g1 g2 g3 : gmap string value) :
  baseDoc p po opts = Some g ->
  sectionReady g "pod" = true ->
  deploymentHop p (Some g) = (deploymentCalls p (Some g), Done (Some g1)) ->
  cronJobHop p (Some g1) = (cronJobCalls p (Some g), Done (Some g2)) ->
  agreeOutside ["deployment.name"; "deployment"] g g1 ->
  agreeOutside ["cronjob.name"; "cronjob"] g1 g2 ->
  nodeHop p po (Some g2) = (nodeCalls p po, Done (Some g3)) ->
  exists tr out,
    GenerateK8s p (kubernetes.ResPod po) opts = (tr, Done (Some out))
    /\ callsVia ViaNode tr = nodeCalls p po
    /\ out !! "node" = g3 !! "node"
    /\ out !! "node.name" = g3 !! "node.name"
    /\ GetValue (Some out) "node.name" = GetValue (Some g3) "node.name".
Proof.
  intros Hbase Rp H1 H2 F1 F2 H3.
  pose proof H3 as (g2' & g3' & [= <-] & [= <-] & F3)%nodeHop_returns.
  assert (sectionReady g3 "pod" = true) as Rp3.
  { rewrite (sectionReady_outside _ _ _ _ F3), (sectionReady_outside _ _ _ _ F2),
      (sectionReady_outside _ _ _ _ F1); [done|other_key..]. }
  destruct (podIPStep_run po g3 Rp3) as (g4 & H4 & F4 & _).
  rewrite <- Hbase in H1.
  eexists _, g4. split; [exact (GenerateK8s_steps _ _ _ _ _ _ _ _ _ _ _ H1 H2 H3 H4)|].
  split_and!.
  - rewrite Hbase, !callsVia_app, callsVia_deploymentCalls, callsVia_cronJobCalls,
      callsVia_nodeCalls. simpl. by rewrite app_nil_r.
  - apply F4. other_key.
  - apply F4. other_key.
  - apply (GetValue_outside _ _ _ _ F4); other_key.
Qed.

(** C7, as amended.  For a pod whose base document is not nil, has its
    [deployment], [cronjob] and [pod] entries missing or maps that are
    not nil and its [node] entry not a nil map, and whose CronJob hop
    does not call through a nil [replicaset] field, [GenerateK8s]
    returns a document [out]; the node peer, when there is one, is
    called once with the pod's node name and [WithMetadata("node")].
    When it answers with a document, the [node] entry of [out] is that
    document's [node] entry, whatever the base document had there.
    When it answers nil or there is no peer, the node name is put under
    [node.name]: a flat [node.name] key of the base document is
    overwritten and the [node] entry left alone; otherwise a base
    document without a [node] entry gets a [node] section with that one
    field, a [node] section that is there keeps its fields and gets
    [name] set, and a [node] entry that is no map stays as it is, with
    nothing written. *)
Theorem node_hop_replaces_or_merges (p : pod) (po : kubernetes.Pod)
    (opts : list FieldOptions) :
  readyExceptNode (baseDoc p po opts) = true ->
  lookupM (baseDoc p po opts) "node" <> Some (VMap None) ->
  (cronJobHopCalls p (baseDoc p po opts) = true -> isSome (replicaset p) = true) ->
  exists tr out,
    GenerateK8s p (kubernetes.ResPod po) opts = (tr, Done (Some out))
    /\ callsVia ViaNode tr = nodeCalls p po
    /\ match nodeAnswer p po with
       | Some meta => out !! "node" = Some (index (Some meta) "node")
       | None =>
           match lookupM (baseDoc p po opts) "node.name" with
           | Some _ =>
               out !! "node.name" = Some (VStr (kubernetes.NodeName (kubernetes.Spec po)))
               /\ out !! "node" = lookupM (baseDoc p po opts) "node"
           | None =>
               match lookupM (baseDoc p po opts) "node" with
               | None =>
                   out !! "node"
                   = Some (VMap (Some {[ "name" :=
                                           VStr (kubernetes.NodeName (kubernetes.Spec po)) ]}))
                   /\ out !! "node.name" = None
               | Some (VMap (Some sub)) =>
                   out !! "node"
                   = Some (VMap (Some (<["name" :=
                                           VStr (kubernetes.NodeName (kubernetes.Spec po))]> sub)))
               | Some w =>
                   out !! "node" = Some w
                   /\ GetValue (Some out) "node.name" = (VNil, Some ErrNotMap)
               end
           end
       end.
Proof.
  intros Hready Hnotnil Hcron.
  destruct (baseDoc p po opts) as [g|] eqn:Hbase; [|discriminate].
  simpl in Hready, Hnotnil. simpl.
  rewrite !andb_true_iff in Hready. destruct Hready as (Rd & Rc & Rp & _).
  destruct (owner_hops_run p g Rd Rc Hcron) as (g1 & g2 & H1 & H2 & F1 & F2).
  assert (g2 !! "node" = g !! "node") as Hnode2.
  { rewrite (F2 "node"), (F1 "node"); [done|other_key..]. }
  assert (g2 !! "node.name" = g !! "node.name") as Hflat2.
  { rewrite (F2 "node.name"), (F1 "node.name"); [done|other_key..]. }
  set (n := VStr (kubernetes.NodeName (kubernetes.Spec po))).
  assert (forall g3,
            nodeHop p po (Some g2) = (nodeCalls p po, Done (Some g3)) ->
            exists tr out,
              GenerateK8s p (kubernetes.ResPod po) opts = (tr, Done (Some out))
              /\ callsVia ViaNode tr = nodeCalls p po
              /\ out !! "node" = g3 !! "node"
              /\ out !! "node.name" = g3 !! "node.name"
              /\ GetValue (Some out) "node.name" = GetValue (Some g3) "node.name") as Hfinish.
  { intros g3 H3.
    by apply (GenerateK8s_after_node p po opts g g1 g2 g3). }
  destruct (nodeAnswer p po) as [meta|] eqn:Hanswer.
  { destruct (Hfinish (<["node" := index (Some meta) "node"]> g2))
      as (tr & out & HG & Hcalls & Hn & _).
    { rewrite (nodeHop_answered p po _ (Some meta)); [|done..].
      unfold put. by rewrite Put_plain by section_key. }
    exists tr, out. split_and!; [done..|]. by rewrite Hn, lookup_insert_eq. }
  fold n in Hfinish |- *.
  assert (forall r, put (Some g2) "node.name" n = ([], Done (Some r)) ->
            nodeHop p po (Some g2) = (nodeCalls p po, Done (Some r))) as Hfall.
  { intros r Hput. rewrite (nodeHop_fallback p po _ Hanswer). fold n. by rewrite Hput. }
  destruct (g !! "node.name") as [old|] eqn:Hflat.
  { destruct (Hfinish (<["node.name" := n]> g2)) as (tr & out & HG & Hcalls & Hn & Hf & _).
    { apply Hfall. unfold put. by rewrite (Put_flat g2 "node.name" n old). }
    exists tr, out. split_and!; [done..| |].
    - by rewrite Hf, lookup_insert_eq.
    - by rewrite Hn, lookup_insert_ne. }
  destruct (g !! "node") as [w|] eqn:Hnode.
  2:{ destruct (Hfinish (<["node" := VMap (Some {[ "name" := n ]})]> g2))
        as (tr & out & HG & Hcalls & Hn & Hf & _).
      { apply Hfall. unfold put.
        by rewrite (Put_fresh g2 "node.name" n); [|done|done|section_key|section_key]. }
      exists tr, out. split_and!; [done..| |].
      - by rewrite Hn, lookup_insert_eq.
      - by rewrite Hf, lookup_insert_ne. }
  assert (isLeaf w = true ->
          exists tr out,
            GenerateK8s p (kubernetes.ResPod po) opts = (tr, Done (Some out))
            /\ callsVia ViaNode tr = nodeCalls p po
            /\ out !! "node" = Some w
            /\ GetValue (Some out) "node.name" = (VNil, Some ErrNotMap)) as Hleafcase.
  { intros Hleaf.
    destruct (Hfinish g2) as (tr & out & HG & Hcalls & Hn & _ & Hget).
    { apply Hfall. unfold put.
      by rewrite (Put_blocked g2 "node.name" n w); [|done|done|section_key|done]. }
    exists tr, out. split_and!; [done..| |].
    - by rewrite Hn.
    - rewrite Hget.
      by apply (GetValue_blocked g2 "node.name" w); [done|done|section_key|done]. }
  destruct w as [|s|[sub|]|o].
  - destruct Hleafcase as (tr & out & ? & ? & ? & ?); [done|]. by exists tr, out.
  - destruct Hleafcase as (tr & out & ? & ? & ? & ?); [done|]. by exists tr, out.
  - destruct (Hfinish (<["node" := VMap (Some (<["name" := n]> sub))]> g2))
      as (tr & out & HG & Hcalls & Hn & _).
    { apply Hfall. unfold put.
      by rewrite (Put_into_section g2 sub "node.name" n);
        [|done|done|section_key|section_key]. }
    exists tr, out. split_and!; [done..|]. by rewrite Hn, lookup_insert_eq.
  - done.
  - destruct Hleafcase as (tr & out & ? & ? & ? & ?); [done|]. by exists tr, out.
Qed.

(** C7 as stated fails: without a node peer and with a [node] entry
    that is a string, the result has no [node.name] at all. *)
Lemma node_fallback_writes_nothing_over_leaf :
  ~ nodeHopAsStated (edge.noPeers edge.baseNodeString) sample.webPod [].
Proof.
  intros (out & Hres & Hnode).
  assert (match result (GenerateK8s (edge.noPeers edge.baseNodeString)
                          (kubernetes.ResPod sample.webPod) []) with
          | Done (Some g) => g !! "node"
          | _ => None
          end = Some (VStr "n0")) as E by vm_refl.
  rewrite Hres in E. rewrite E in Hnode. vm_compute in Hnode. discriminate Hnode.
Qed.

(** C9 as stated fails: for a pod without an IP whose base document
    came with [pod.ip], the result still has [pod.ip]. *)
Lemma pod_ip_of_base_stays_for_empty_ip :
  ~ podIPAsStated (edge.noPeers edge.basePodIP) edge.pendingPod [].
Proof.
  intros (out & Hres & Hip).
  assert (match result (GenerateK8s (edge.noPeers edge.basePodIP)
                          (kubernetes.ResPod edge.pendingPod) []) with
          | Done r => hasKey r "pod.ip"
          | Panic => false
          end = true) as E by vm_refl.
  rewrite Hres in E. rewrite E in Hip. vm_compute in Hip. discriminate Hip.
Qed.

(** ** The further properties at sample inputs *)

Lemma GenerateK8s_keeps_other_entries_witness :
  GenerateK8s (edge.noPeers edge.baseNodeMap) (kubernetes.ResPod sample.webPod) []
  = ([], Done (Some edge.noPeersOut))
  /\ edge.noPeersOut !! "namespace" = Some (VStr "default").
Proof.
  split; [vm_refl|].
  destruct (GenerateK8s_keeps_other_entries (edge.noPeers edge.baseNodeMap) sample.webPod []
              [] (Some edge.noPeersOut)) as (g & out & Hbase & [= <-] & Hframe);
    [vm_refl|].
  rewrite (Hframe "namespace"); [|unfold touchedKeys; other_key].
  change (edge.baseNodeMap = Some g) in Hbase. unfold edge.baseNodeMap in Hbase.
  injection Hbase as <-. vm_refl.
Defined.

Lemma GenerateK8s_panics_on_nil_base_witness :
  baseDoc edge.nilBase sample.webPod [] = None
  /\ GenerateK8s edge.nilBase (kubernetes.ResPod sample.webPod) []
     = ([mkCall ViaNode "n1" [WithMetadata "node"]], Panic).
Proof.
  split; [reflexivity|].
  apply (GenerateK8s_panics_on_nil_base edge.nilBase sample.webPod []). reflexivity.
Defined.

Lemma GenerateK8s_panics_iff_witness :
  readyBase (baseDoc sample.cronOnly sample.webPod []) = true
  /\ GenerateK8s sample.cronOnly (kubernetes.ResPod sample.webPod) [] = ([], Panic)
  /\ readyBase (baseDoc sample.cronBoth sample.webPod []) = true
  /\ exists tr out,
       GenerateK8s sample.cronBoth (kubernetes.ResPod sample.webPod) [] = (tr, Done (Some out)).
Proof.
  split; [by vm_compute|]. split.
  { apply (GenerateK8s_panics_iff sample.cronOnly sample.webPod []); by vm_compute. }
  split; [by vm_compute|].
  apply (GenerateK8s_panics_iff sample.cronBoth sample.webPod []); [by vm_compute|].
  by intros [_ [=]].
Defined.

Lemma deployment_name_copied_unless_empty_witness :
  readyBase (baseDoc edge.deploymentOdd sample.webPod []) = true
  /\ fst (GetValue (baseDoc edge.deploymentOdd sample.webPod []) "replicaset.name") = VStr "rs1"
  /\ exists tr out,
       GenerateK8s edge.deploymentOdd (kubernetes.ResPod sample.webPod) []
       = (tr, Done (Some out))
       /\ GetValue (Some out) "deployment.name" = (VOther 7, None).
Proof.
  split; [vm_refl|]. split; [vm_refl|].
  destruct (deployment_name_copied_unless_empty edge.deploymentOdd sample.webPod []
              edge.rsOdd "rs1") as (tr & out & HG & Hd);
    [vm_refl|by intros _|reflexivity|reflexivity|vm_refl|].
  exists tr, out. split; [exact HG|]. rewrite Hd. vm_refl.
Defined.

Lemma Generate_top_level_keys_witness :
  Generate sample.deploymentAll sample.aNode [] = ([], Done (Some edge.nodeOut))
  /\ dom edge.nodeOut = ({[ "kubernetes"; "orchestrator" ]} : gset string).
Proof.
  split; [vm_refl|].
  destruct (Generate_top_level_keys sample.deploymentAll sample.aNode [] []
              (Some edge.nodeOut)) as (doc & [= <-] & Hdom); [vm_refl|].
  rewrite Hdom. vm_refl.
Defined.

Lemma Generate_keeps_native_fields_witness :
  GenerateK8s sample.mergeTwo (kubernetes.ResPod sample.webPod) []
  = ([mkCall ViaReplicaset "rs1" []; mkCall ViaNode "n1" [WithMetadata "node"]],
     Done (Some edge.allPeersOut))
  /\ lookupM (GenerateECS sample.mergeTwo (kubernetes.ResPod sample.webPod)) "kubernetes"
     = Some (sample.doc [("cluster", VStr "prod")])
  /\ exists doc merged,
       Generate sample.mergeTwo (kubernetes.ResPod sample.webPod) []
       = ([mkCall ViaReplicaset "rs1" []; mkCall ViaNode "n1" [WithMetadata "node"]],
          Done (Some doc))
       /\ doc !! "kubernetes" = Some (VMap (Some merged))
       /\ merged !! "deployment" = Some (sample.doc [("name", VStr "dep1")])
       /\ merged !! "cluster" = Some (VStr "prod").
Proof.
  split; [vm_refl|]. split; [vm_refl|].
  destruct (Generate_keeps_native_fields sample.mergeTwo (kubernetes.ResPod sample.webPod) []
              [mkCall ViaReplicaset "rs1" []; mkCall ViaNode "n1" [WithMetadata "node"]]
              edge.allPeersOut (Some (list_to_map [("cluster", VStr "prod")])))
    as (doc & merged & HG & Hk & Hkeep & Hleaf); [vm_refl..|].
  exists doc, merged. split_and!; [exact HG|exact Hk| |].
  - rewrite (Hkeep "deployment"); vm_refl.
  - apply Hleaf; vm_refl.
Defined.

Lemma Generate_absorbs_ecs_witness :
  Generate sample.deploymentAll sample.aNode [] = ([], Done (Some edge.nodeOut))
  /\ DeepUpdate edge.nodeOut (GenerateECS sample.deploymentAll sample.aNode) = edge.nodeOut.
Proof.
  split; [vm_refl|].
  apply (Generate_absorbs_ecs sample.deploymentAll sample.aNode [] []). vm_refl.
Defined.

Lemma Generate_wraps_GenerateFromName_witness :
  store sample.withStore = Some sample.podStore
  /\ GetByKey sample.podStore "web-0" = (Some (kubernetes.ResPod sample.webPod), true, None)
  /\ lookupM (GenerateECS sample.withStore (kubernetes.ResPod sample.webPod)) "kubernetes" = None
  /\ match GenerateFromName sample.withStore "web-0" [] with
     | (tr, Done k8s) =>
         exists doc, Generate sample.withStore (kubernetes.ResPod sample.webPod) []
                     = (tr, Done (Some doc))
                     /\ doc !! "kubernetes" = Some (VMap k8s)
     | (tr, Panic) => Generate sample.withStore (kubernetes.ResPod sample.webPod) [] = (tr, Panic)
     end.
Proof.
  split; [reflexivity|]. split; [reflexivity|]. split; [by vm_compute|].
  apply (Generate_wraps_GenerateFromName sample.withStore "web-0" [] sample.podStore
           sample.webPod None); by vm_compute.
Defined.

Lemma generator_without_owner_peers_witness :
  readyBase (baseDoc edge.nodeOnly sample.webPod []) = true
  /\ exists out,
       GenerateK8s edge.nodeOnly (kubernetes.ResPod sample.webPod) []
       = ([mkCall ViaNode "n1" [WithMetadata "node"]], Done (Some out))
       /\ hasKey (Some out) "deployment.name" = false
       /\ hasKey (Some out) "cronjob.name" = false.
Proof.
  split; [by vm_compute|].
  destruct (generator_without_owner_peers edge.nodeOnly
              (edge.newResource edge.baseNodeMap sample.ecs) None None None
              (Some sample.nodeGen) None {| Deployment := true; CronJob := true |}
              sample.webPod []) as (out & HG & Hdep & Hcron); [reflexivity|by vm_compute|].
  exists out. split; [exact HG|]. unfold hasKey. rewrite Hdep, Hcron. by vm_compute.
Defined.

Lemma node_hop_replaces_or_merges_witness :
  readyExceptNode (baseDoc sample.deploymentAll sample.webPod []) = true
  /\ lookupM (baseDoc sample.deploymentAll sample.webPod []) "node" <> Some (VMap None)
  /\ (cronJobHopCalls sample.deploymentAll (baseDoc sample.deploymentAll sample.webPod []) = true ->
      isSome (replicaset sample.deploymentAll) = true)
  /\ exists tr out,
       GenerateK8s sample.deploymentAll (kubernetes.ResPod sample.webPod) [] = (tr, Done (Some out))
       /\ callsVia ViaNode tr = [mkCall ViaNode "n1" [WithMetadata "node"]]
       /\ out !! "node"
          = Some (sample.doc [("name", VStr "n1"); ("uid", VStr "u-1")]).
Proof.
  split; [by vm_compute|]. split; [by vm_compute|]. split; [by vm_compute|].
  destruct (node_hop_replaces_or_merges sample.deploymentAll sample.webPod [])
    as (tr & out & HG & Hcalls & Hnode); [by vm_compute..|].
  exists tr, out. split; [exact HG|]. split; [exact Hcalls|]. exact Hnode.
Defined.

Lemma pod_ip_joins_pod_section_witness :
  GenerateK8s (edge.noPeers edge.baseNodeMap) (kubernetes.ResPod sample.webPod) []
  = ([], Done (Some edge.noPeersOut))
  /\ lookupM (baseDoc (edge.noPeers edge.baseNodeMap) sample.webPod []) "pod"
     = Some (sample.doc [("name", VStr "web-0"); ("uid", VStr "p-1")])
  /\ edge.noPeersOut !! "pod"
     = Some (sample.doc [("name", VStr "web-0"); ("uid", VStr "p-1");
                         ("ip", VStr "10.0.0.5")]).
Proof.
  split; [vm_refl|]. split; [vm_refl|].
  rewrite (pod_ip_joins_pod_section (edge.noPeers edge.baseNodeMap) sample.webPod []
             (list_to_map [("name", VStr "web-0"); ("uid", VStr "p-1")]) []
             edge.noPeersOut); [vm_refl|vm_refl|vm_refl|vm_refl|discriminate].
Defined.

Lemma node_fallback_joins_node_section_witness :
  GenerateK8s (edge.noPeers edge.baseNodeMap) (kubernetes.ResPod sample.webPod) []
  = ([], Done (Some edge.noPeersOut))
  /\ nodeAnswer (edge.noPeers edge.baseNodeMap) sample.webPod = None
  /\ lookupM (baseDoc (edge.noPeers edge.baseNodeMap) sample.webPod []) "node"
     = Some (sample.doc [("hostname", VStr "host-1")])
  /\ edge.noPeersOut !! "node"
     = Some (sample.doc [("hostname", VStr "host-1"); ("name", VStr "n1")]).
Proof.
  split; [vm_refl|]. split; [vm_refl|]. split; [vm_refl|].
  rewrite (node_fallback_joins_node_section (edge.noPeers edge.baseNodeMap) sample.webPod []
             (list_to_map [("hostname", VStr "host-1")]) [] edge.noPeersOut); vm_refl.
Defined.

Lemma node_fallback_blocked_by_leaf_witness :
  GenerateK8s (edge.noPeers edge.baseNodeString) (kubernetes.ResPod sample.webPod) []
  = ([], Done (Some edge.nodeStringOut))
  /\ lookupM (baseDoc (edge.noPeers edge.baseNodeString) sample.webPod []) "node"
     = Some (VStr "n0")
  /\ edge.nodeStringOut !! "node" = Some (VStr "n0")
  /\ GetValue (Some edge.nodeStringOut) "node.name" = (VNil, Some ErrNotMap).
Proof.
  split; [vm_refl|]. split; [vm_refl|].
  apply (node_fallback_blocked_by_leaf (edge.noPeers edge.baseNodeString) sample.webPod []
           (VStr "n0") [] edge.nodeStringOut); vm_refl.
Defined.
